(** * Image-processing service (main.py): shallow embedding and properties

    The service accepts two uploaded images, validates their file names,
    fingerprints their bytes with SHA-256, looks the pair up in a
    TTL cache, and on a miss converts both to grayscale, stores the two
    results under fresh names and records their locations in the cache.

    Conventions of the embedding:
    - [bytes] is [list byte]; Python [str] is [string];
    - [hashlib.sha256] is embedded as the FIPS 180-4 function, on 32-bit
      words kept in [Z] with the wrap-around written out;
    - the file system is a finite map from paths to contents;
    - [cachetools.TTLCache] is a list of links in recency order;
    - the handler runs in a small monad with state, exceptions and a
      record of the collaborator calls it made;
    - the imaging library (decode, grayscale, PNG encode) is a parameter;
    - clock readings, temporary names, random identifiers and I/O outcomes
      of one request are an explicit environment record;
    - logging is not modelled. *)

From Stdlib Require Import ZArith List String Ascii Lia Bool.
From Stdlib.Strings Require Import Byte.
From stdpp Require Import base gmap strings list fin_maps.
Import ListNotations.

Local Open Scope Z_scope.

(** ** hashlib.sha256 (FIPS 180-4) *)

Module SHA256.

Definition wrap32 (x : Z) : Z := x mod 2 ^ 32.
Definition add32 (x y : Z) : Z := wrap32 (x + y).
Definition not32 (x : Z) : Z := Z.lxor x (2 ^ 32 - 1).
Definition rotr (n x : Z) : Z :=
  Z.lor (Z.shiftr x n) (wrap32 (Z.shiftl x (32 - n))).
Definition shr (n x : Z) : Z := Z.shiftr x n.

Definition Ch (x y z : Z) : Z := Z.lxor (Z.land x y) (Z.land (not32 x) z).
Definition Maj (x y z : Z) : Z :=
  Z.lxor (Z.lxor (Z.land x y) (Z.land x z)) (Z.land y z).
Definition Sum0 (x : Z) : Z := Z.lxor (Z.lxor (rotr 2 x) (rotr 13 x)) (rotr 22 x).
Definition Sum1 (x : Z) : Z := Z.lxor (Z.lxor (rotr 6 x) (rotr 11 x)) (rotr 25 x).
Definition sig0 (x : Z) : Z := Z.lxor (Z.lxor (rotr 7 x) (rotr 18 x)) (shr 3 x).
Definition sig1 (x : Z) : Z := Z.lxor (Z.lxor (rotr 17 x) (rotr 19 x)) (shr 10 x).

(** The constants are the leading 32 fractional bits of the square roots
    (initial hash value) and cube roots (round constants) of the first
    primes; they are computed here rather than transcribed. *)
Definition primes64 : list Z :=
  [2; 3; 5; 7; 11; 13; 17; 19; 23; 29; 31; 37; 41; 43; 47; 53;
   59; 61; 67; 71; 73; 79; 83; 89; 97; 101; 103; 107; 109; 113; 127; 131;
   137; 139; 149; 151; 157; 163; 167; 173; 179; 181; 191; 193; 197; 199;
   211; 223; 227; 229; 233; 239; 241; 251; 257; 263; 269; 271; 277; 281;
   283; 293; 307; 311].

(** Integer cube root by bits, from bit [n - 1] downwards. *)
Fixpoint icbrt_bits (n : nat) (x r : Z) : Z :=
  match n with
  | O => r
  | S n' =>
      let r' := r + 2 ^ Z.of_nat n' in
      icbrt_bits n' x (if r' * r' * r' <=? x then r' else r)
  end.

Definition frac_sqrt32 (p : Z) : Z := wrap32 (Z.sqrt (p * 2 ^ 64)).
Definition frac_cbrt32 (p : Z) : Z := wrap32 (icbrt_bits 40 (p * 2 ^ 96) 0).

Definition K : list Z := Eval vm_compute in List.map frac_cbrt32 primes64.

Record hash := Hash { h0 : Z; h1 : Z; h2 : Z; h3 : Z;
                      h4 : Z; h5 : Z; h6 : Z; h7 : Z }.

Definition H_init : hash :=
  Eval vm_compute in
    match List.map frac_sqrt32 (firstn 8 primes64) with
    | [a; b; c; d; e; f; g; h] => Hash a b c d e f g h
    | _ => Hash 0 0 0 0 0 0 0 0
    end.

(** Padding: a [0x80] byte, zero bytes up to 56 modulo 64, and the bit
    length as a 64-bit big-endian integer. *)
Definition byte_val (b : byte) : Z := Z.of_N (Byte.to_N b).

Definition be_bytes (n : nat) (x : Z) : list Z :=
  List.map (fun i => Z.shiftr x (8 * Z.of_nat (n - 1 - i)) mod 256) (seq 0 n).

Definition pad (msg : list byte) : list Z :=
  let len := Z.of_nat (List.length msg) in
  let k := (55 - len) mod 64 in
  List.map byte_val msg ++ [128] ++ repeat 0 (Z.to_nat k)
    ++ be_bytes 8 ((8 * len) mod 2 ^ 64).

Definition be_word (bs : list Z) : Z :=
  fold_left (fun acc b => acc * 256 + b) bs 0.

(** The sixteen 32-bit words of block [i] of the padded message. *)
Definition block_words (padded : list Z) (i : nat) : list Z :=
  let blk := firstn 64 (skipn (64 * i) padded) in
  List.map (fun j => be_word (firstn 4 (skipn (4 * j) blk))) (seq 0 16).

(** Message schedule: sixty-four words grown from the sixteen of the block. *)
Definition schedule (m : list Z) : list Z :=
  fold_left
    (fun W t =>
       let at_ k := nth (t - k) W 0 in
       W ++ [add32 (add32 (add32 (sig1 (at_ 2%nat)) (at_ 7%nat))
                     (sig0 (at_ 15%nat))) (at_ 16%nat)])
    (seq 16 48) m.

Definition round (s : hash) (kw : Z * Z) : hash :=
  let '(Hash a b c d e f g h) := s in
  let t1 := add32 (add32 (add32 (add32 h (Sum1 e)) (Ch e f g)) (fst kw)) (snd kw) in
  let t2 := add32 (Sum0 a) (Maj a b c) in
  Hash (add32 t1 t2) a b c (add32 d t1) e f g.

Definition compress (H : hash) (m : list Z) : hash :=
  let s := fold_left round (combine K (schedule m)) H in
  Hash (add32 (h0 H) (h0 s)) (add32 (h1 H) (h1 s))
       (add32 (h2 H) (h2 s)) (add32 (h3 H) (h3 s))
       (add32 (h4 H) (h4 s)) (add32 (h5 H) (h5 s))
       (add32 (h6 H) (h6 s)) (add32 (h7 H) (h7 s)).

Definition digest (msg : list byte) : hash :=
  let padded := pad msg in
  fold_left (fun H i => compress H (block_words padded i))
            (seq 0 (List.length padded / 64)) H_init.

(** [hexdigest]: eight lowercase hexadecimal digits per word. *)
Definition hex_digit (n : Z) : ascii :=
  if n <? 10 then ascii_of_nat (Z.to_nat (48 + n))
  else ascii_of_nat (Z.to_nat (87 + n)).

Definition nibble (x : Z) (i : Z) : ascii :=
  hex_digit (Z.land (Z.shiftr x (4 * i)) 15).

Definition hex_word (x : Z) (rest : string) : string :=
  String (nibble x 7) (String (nibble x 6) (String (nibble x 5)
  (String (nibble x 4) (String (nibble x 3) (String (nibble x 2)
  (String (nibble x 1) (String (nibble x 0) rest))))))).

Definition hexdigest (msg : list byte) : string :=
  let '(Hash a b c d e f g h) := digest msg in
  hex_word a (hex_word b (hex_word c (hex_word d
    (hex_word e (hex_word f (hex_word g (hex_word h EmptyString))))))).

End SHA256.

Local Open Scope string_scope.
Local Open Scope list_scope.

(** ** Python string operations used by the validator *)

(** [bytes] values: the raw content of an upload or of a file. *)
Abbreviation bytes := (list byte).

(** [c in s] for a one-character [c]. *)
Fixpoint contains_char (c : ascii) (s : string) : bool :=
  match s with
  | EmptyString => false
  | String a r => Ascii.eqb a c || contains_char c r
  end.

(** Split at the last occurrence of [c]: the text before it and the text
    after it, or [None] when [c] does not occur. *)
Fixpoint rsplit_last (c : ascii) (s : string) : option (string * string) :=
  match s with
  | EmptyString => None
  | String a r =>
      match rsplit_last c r with
      | Some (before, after) => Some (String a before, after)
      | None => if Ascii.eqb a c then Some (EmptyString, r) else None
      end
  end.

(** [s.rsplit(c, 1)]: at most one split, taken from the right. *)
Definition rsplit1 (c : ascii) (s : string) : list string :=
  match rsplit_last c s with
  | Some (before, after) => [before; after]
  | None => [s]
  end.

(** [str.lower] on the ASCII letters; the allow-set is ASCII, and no other
    character lowercases into the letters of its members. *)
Definition lower_char (a : ascii) : ascii :=
  let n := nat_of_ascii a in
  if (65 <=? n)%nat && (n <=? 90)%nat then ascii_of_nat (n + 32) else a.

Fixpoint lower (s : string) : string :=
  match s with
  | EmptyString => EmptyString
  | String a r => String (lower_char a) (lower r)
  end.

(** ** Validator and Fingerprinter *)

Definition ALLOWED_EXTENSIONS : gset string := {[ "png"; "jpg"; "jpeg" ]}.

(** [allowed_file]: the index [[1]] is only evaluated when the left
    conjunct holds, where it exists ([rsplit1_ext]); the [None] arm is the
    unreachable [IndexError]. *)
Definition allowed_file (filename : string) : bool :=
  contains_char "." filename &&
  match rsplit1 "." filename !! 1%nat with
  | Some ext => bool_decide (lower ext ∈ ALLOWED_EXTENSIONS)
  | None => false
  end.

Definition get_file_hash (file_content : bytes) : string :=
  SHA256.hexdigest file_content.

(** The f-string of the handler:
    [f"{get_file_hash(source_content)}:{get_file_hash(dest_content)}"]. *)
Definition cache_key (source_content dest_content : bytes) : string :=
  get_file_hash source_content +:+ ":" +:+ get_file_hash dest_content.

(** ** cachetools.TTLCache

    [cache = TTLCache(maxsize=100, ttl=3600)].  A cache is the list of its
    links, least recently used first.  Every operation takes the clock
    reading it is performed at.  Links are appended with a constant [ttl],
    so under a monotonic clock the expired links are exactly those that
    [expire] filters out. *)

Module TTLCache.

Definition maxsize : nat := 100.
Definition ttl : Z := 3600.

Record link := Link { key : string; value : string * string; expires : Z }.

Definition has_key (k : string) (l : link) : bool := String.eqb (key l) k.
Definition other_key (k : string) (l : link) : bool := negb (has_key k l).
Definition live (time : Z) (l : link) : bool := (time <? expires l)%Z.

Definition lookup_link (k : string) (c : list link) : option link :=
  List.find (has_key k) c.

(** [key in cache]: no reordering, no purge. *)
Definition contains (c : list link) (time : Z) (k : string) : bool :=
  match lookup_link k c with
  | Some l => live time l
  | None => false
  end.

(** The link of [k] becomes the most recently used. *)
Definition move_to_end (k : string) (c : list link) : list link :=
  match lookup_link k c with
  | Some l => List.filter (other_key k) c ++ [l]
  | None => c
  end.

(** [cache[key]]: [None] is [KeyError] (no link, or an expired one). *)
Definition getitem (c : list link) (time : Z) (k : string)
  : option (string * string) * list link :=
  match lookup_link k c with
  | None => (None, c)
  | Some l => (if live time l then Some (value l) else None, move_to_end k c)
  end.

Definition expire (c : list link) (time : Z) : list link :=
  List.filter (live time) c.

(** [cache[key] = value]: purge the expired links; when the key is new,
    pop least recently used links until one more fits; store the value
    under a link that expires [ttl] after [time]. *)
Definition setitem (c : list link) (time : Z) (k : string)
    (v : string * string) : list link :=
  let c1 := expire c time in
  let c2 := if existsb (has_key k) c1 then c1
            else skipn (List.length c1 + 1 - maxsize) c1 in
  List.filter (other_key k) c2 ++ [Link k v (time + ttl)%Z].

End TTLCache.

(** ** State, exceptions and the record of calls *)

(** The process-wide cache and the file system (temporary directory and
    output directory alike), as a map from paths to contents. *)
Record World := MkWorld {
  cache : list TTLCache.link;
  files : gmap string bytes
}.

(** A Python exception: its class and [str(e)]. *)
Record Exn := MkExn { exn_class : string; exn_str : string }.

(** One entry per completed collaborator call; [ok] tells whether the call
    returned ([true]) or raised ([false]). *)
Inductive Event :=
| EvTransform (content : bytes) (ok : bool)
| EvStore (path : string) (ok : bool)
| EvCachePut (k : string) (v : string * string).

Definition M (A : Type) : Type := World -> (Exn + A) * World * list Event.

Definition ret {A} (x : A) : M A := fun w => (inr x, w, []).

Definition raise {A} (e : Exn) : M A := fun w => (inl e, w, []).

Definition bind {A B} (m : M A) (f : A -> M B) : M B :=
  fun w =>
    match m w with
    | (inl e, w1, t1) => (inl e, w1, t1)
    | (inr a, w1, t1) =>
        let '(r, w2, t2) := f a w1 in (r, w2, t1 ++ t2)
    end.

(** [try: body / except Exception as e: handler(e) / else: k(result)].
    A handler that returns ends the function; one that re-raises is
    [fun e => raise e]. *)
Definition try_except {A B} (body : M A) (handler : Exn -> M B)
    (k : A -> M B) : M B :=
  fun w =>
    match body w with
    | (inl e, w1, t1) =>
        let '(r, w2, t2) := handler e w1 in (r, w2, t1 ++ t2)
    | (inr a, w1, t1) =>
        let '(r, w2, t2) := k a w1 in (r, w2, t1 ++ t2)
    end.

(** Run [m] and record the call with its outcome. *)
Definition traced {A} (ev : bool -> Event) (m : M A) : M A :=
  fun w =>
    match m w with
    | (inl e, w1, t1) => (inl e, w1, t1 ++ [ev false])
    | (inr a, w1, t1) => (inr a, w1, t1 ++ [ev true])
    end.

Declare Scope py_scope.
Delimit Scope py_scope with py.
Notation "x <- m ;; k" := (bind m (fun x => k))
  (at level 100, m at next level, right associativity) : py_scope.
Notation "m ;; k" := (bind m (fun _ => k))
  (at level 100, right associativity) : py_scope.
Local Open Scope py_scope.

(** File-system primitives. *)
Definition write_file (path : string) (data : bytes) : M unit :=
  fun w => (inr tt, MkWorld (cache w) (<[path := data]> (files w)), []).

Definition read_file (path : string) : M bytes :=
  fun w =>
    match files w !! path with
    | Some data => (inr data, w, [])
    | None => (inl (MkExn "FileNotFoundError" path), w, [])
    end.

Definition unlink (path : string) : M unit :=
  fun w =>
    match files w !! path with
    | Some _ => (inr tt, MkWorld (cache w) (delete path (files w)), [])
    | None => (inl (MkExn "FileNotFoundError" path), w, [])
    end.

(** [str(KeyError(k))] is [repr(k)]: for the keys of this cache, which
    are hexadecimal digits and a colon, that is [k] in single quotes. *)
Definition repr_key (k : string) : string := "'" +:+ k +:+ "'".

(** Cache primitives. *)
Definition cache_contains (time : Z) (k : string) : M bool :=
  fun w => (inr (TTLCache.contains (cache w) time k), w, []).

Definition cache_getitem (time : Z) (k : string) : M (string * string) :=
  fun w =>
    let '(r, c) := TTLCache.getitem (cache w) time k in
    match r with
    | Some v => (inr v, MkWorld c (files w), [])
    | None => (inl (MkExn "KeyError" (repr_key k)), MkWorld c (files w), [])
    end.

Definition cache_setitem (time : Z) (k : string) (v : string * string) : M unit :=
  fun w =>
    (inr tt, MkWorld (TTLCache.setitem (cache w) time k v) (files w),
     [EvCachePut k v]).

(** ** os.path.join and the per-request environment *)

Definition starts_with_sep (s : string) : bool :=
  match s with
  | String a _ => Ascii.eqb a "/"
  | EmptyString => false
  end.

Fixpoint ends_with_sep (s : string) : bool :=
  match s with
  | EmptyString => false
  | String a EmptyString => Ascii.eqb a "/"
  | String _ r => ends_with_sep r
  end.

(** [os.path.join(a, b)] on POSIX paths. *)
Definition path_join (a b : string) : string :=
  if starts_with_sep b then b
  else if String.eqb a "" || ends_with_sep a then a +:+ b
  else a +:+ "/" +:+ b.

(** The names [tempfile.NamedTemporaryFile] hands out in one transform. *)
Record TempNames := MkTemp { tmp_in : string; tmp_out : string }.

(** How one write to the output directory goes: it succeeds, or
    [os.makedirs], [open] or [f.write] raises; a failing [f.write] may have
    put a prefix of the content into the file. *)
Inductive IoOutcome :=
| IoOk
| IoFailMkdir (e : Exn)
| IoFailOpen (e : Exn)
| IoFailWrite (e : Exn) (written : nat).

(** What one request draws from outside: the clock at the three cache
    operations, temporary names, [uuid.uuid4().hex] values and the
    outcome of each write to the output directory. *)
Record Env := MkEnv {
  now_in : Z;
  now_get : Z;
  now_set : Z;
  tmp_src : TempNames;
  tmp_dst : TempNames;
  uuid_src : string;
  uuid_dst : string;
  io_src : IoOutcome;
  io_dst : IoOutcome
}.

(** [UploadFile]: the declared file name (possibly absent) and the bytes
    that [read()] returns. *)
Record UploadFile := MkUpload {
  filename : option string;
  file_content : bytes
}.

(** A JSON response: status code and a flat object of string fields. *)
Record Response := JSONResponse {
  status_code : Z;
  content : list (string * string)
}.

(** A handler that returns a [dict] answers 200 with that object. *)
Definition dict_response (d : list (string * string)) : Response :=
  JSONResponse 200 d.

(** ** Observations on a run *)

Definition run_result {A} (o : (Exn + A) * World * list Event) : Exn + A := o.1.1.
Definition run_world {A} (o : (Exn + A) * World * list Event) : World := o.1.2.
Definition run_events {A} (o : (Exn + A) * World * list Event) : list Event := o.2.

(** Whether a call returned rather than raised. *)
Definition returned {A} (r : Exn + A) : bool :=
  match r with
  | inr _ => true
  | inl _ => false
  end.

(** A missing or empty file name: [not upload.filename]. *)
Definition no_name (f : option string) : Prop := f = None \/ f = Some "".

(** Both uploads carry a non-empty, allowed file name. *)
Definition request_valid (source_image dest_image : UploadFile) : bool :=
  match filename source_image, filename dest_image with
  | Some a, Some b =>
      negb (String.eqb a "") && negb (String.eqb b "")
      && allowed_file a && allowed_file b
  | _, _ => false
  end.

(** ** Transformer, Store and RequestHandler *)

Section Pipeline.

(** The imaging library: [Image.open(path).convert("L")] on the bytes of
    the file, and [img.save(name, "PNG", optimize=True)], which yields
    the encoded bytes or raises after some bytes reached the file. *)
Variable Image : Type.
Variable Image_open_convert_L : bytes -> Exn + Image.
Variable Image_save_png : Image -> (Exn * bytes) + bytes.

(** [os.getenv("OUTPUT_FOLDER", "static/output")]. *)
Variable OUTPUT_FOLDER : string.

Definition decode_gray (data : bytes) : M Image :=
  match Image_open_convert_L data with
  | inl e => raise e
  | inr img => ret img
  end.

Definition save_png (img : Image) (path : string) : M unit :=
  match Image_save_png img with
  | inl (e, partial) => write_file path partial ;; raise e
  | inr png => write_file path png
  end.

(** Creating and writing the two temporary files is taken to succeed
    (an [OSError] there is outside the model); what the imaging library
    does is the parameter.  Properties of a successful transform are
    therefore stated about runs that return. *)
Definition process_image (tn : TempNames) (content : bytes) : M bytes :=
  traced (EvTransform content)
    (try_except
       (write_file (tmp_in tn) content ;;
        let temp_file_path := tmp_in tn in
        data <- read_file temp_file_path ;;
        img <- decode_gray data ;;
        write_file (tmp_out tn) [] ;;
        save_png img (tmp_out tn) ;;
        processed_content <- read_file (tmp_out tn) ;;
        unlink (tmp_out tn) ;;
        unlink temp_file_path ;;
        ret processed_content)
       (fun e => raise e)
       ret).

Definition makedirs (io : IoOutcome) : M unit :=
  match io with
  | IoFailMkdir e => raise e
  | _ => ret tt
  end.

Definition open_wb (io : IoOutcome) (path : string) : M unit :=
  match io with
  | IoFailOpen e => raise e
  | _ => write_file path []
  end.

Definition f_write (io : IoOutcome) (path : string) (data : bytes) : M unit :=
  match io with
  | IoFailWrite e n => write_file path (firstn n data) ;; raise e
  | _ => write_file path data
  end.

Definition save_output_image (io : IoOutcome) (content : bytes)
    (output_dir output_name : string) : M string :=
  traced (EvStore (path_join output_dir output_name))
    (try_except
       (makedirs io ;;
        let output_path := path_join output_dir output_name in
        open_wb io output_path ;;
        f_write io output_path content ;;
        ret output_path)
       (fun e => raise e)
       ret).

Definition no_file_selected : Response :=
  JSONResponse 400 [("error", "No file selected")].

Definition invalid_format : Response :=
  JSONResponse 400
    [("error", "Invalid file format. Only PNG, JPG, JPEG allowed")].

Definition server_error (e : Exn) : Response :=
  JSONResponse 500 [("error", exn_str e)].

Definition result_response (source_url dest_url : string) : Response :=
  dict_response [("source_result", source_url); ("dest_result", dest_url)].

Definition process_images (env : Env) (source_image dest_image : UploadFile)
  : M Response :=
  match filename source_image, filename dest_image with
  | Some source_name, Some dest_name =>
      if String.eqb source_name "" || String.eqb dest_name "" then
        ret no_file_selected
      else if negb (allowed_file source_name && allowed_file dest_name) then
        ret invalid_format
      else
        let source_content := file_content source_image in
        let dest_content := file_content dest_image in
        let cache_key := cache_key source_content dest_content in
        hit <- cache_contains (now_in env) cache_key ;;
        if hit then
          result_urls <- cache_getitem (now_get env) cache_key ;;
          ret (result_response (fst result_urls) (snd result_urls))
        else
          try_except
            (source_processed <- process_image (tmp_src env) source_content ;;
             dest_processed <- process_image (tmp_dst env) dest_content ;;
             ret (source_processed, dest_processed))
            (fun e => ret (server_error e))
            (fun '(source_processed, dest_processed) =>
               try_except
                 (let source_filename := "source_" +:+ uuid_src env +:+ ".png" in
                  let dest_filename := "dest_" +:+ uuid_dst env +:+ ".png" in
                  source_path <- save_output_image (io_src env)
                                   source_processed OUTPUT_FOLDER source_filename ;;
                  dest_path <- save_output_image (io_dst env)
                                 dest_processed OUTPUT_FOLDER dest_filename ;;
                  ret (source_path, dest_path))
                 (fun e => ret (server_error e))
                 (fun '(source_path, dest_path) =>
                    cache_setitem (now_set env) cache_key
                      ("/" +:+ source_path, "/" +:+ dest_path) ;;
                    ret (result_response ("/" +:+ source_path)
                                         ("/" +:+ dest_path))))
  | _, _ => ret no_file_selected
  end.

(** The paths of the handler, one constructor per way through
    [process_images]: what is returned, the state left behind and the
    calls made.  [process_images_path] shows that every run follows one
    of them. *)
Section Paths.

Variables (env : Env) (source_image dest_image : UploadFile) (w : World).

Let k := cache_key (file_content source_image) (file_content dest_image).
Let source_path :=
  path_join OUTPUT_FOLDER ("source_" +:+ uuid_src env +:+ ".png").
Let dest_path :=
  path_join OUTPUT_FOLDER ("dest_" +:+ uuid_dst env +:+ ".png").
Let t_source := EvTransform (file_content source_image).
Let t_dest := EvTransform (file_content dest_image).

Inductive handler_path : (Exn + Response) * World * list Event -> Prop :=
| path_no_file :
    no_name (filename source_image) \/ no_name (filename dest_image) ->
    handler_path (inr no_file_selected, w, [])
| path_invalid_format a b :
    filename source_image = Some a -> filename dest_image = Some b ->
    a <> "" -> b <> "" ->
    allowed_file a && allowed_file b = false ->
    handler_path (inr invalid_format, w, [])
| path_hit l :
    request_valid source_image dest_image = true ->
    TTLCache.contains (cache w) (now_in env) k = true ->
    TTLCache.lookup_link k (cache w) = Some l ->
    TTLCache.live (now_get env) l = true ->
    handler_path
      (inr (result_response (fst (TTLCache.value l)) (snd (TTLCache.value l))),
       MkWorld (TTLCache.move_to_end k (cache w)) (files w), [])
| path_hit_expired l :
    request_valid source_image dest_image = true ->
    TTLCache.contains (cache w) (now_in env) k = true ->
    TTLCache.lookup_link k (cache w) = Some l ->
    TTLCache.live (now_get env) l = false ->
    handler_path
      (inl (MkExn "KeyError" (repr_key k)),
       MkWorld (TTLCache.move_to_end k (cache w)) (files w), [])
| path_transform_failed e fs evs :
    request_valid source_image dest_image = true ->
    TTLCache.contains (cache w) (now_in env) k = false ->
    evs = [t_source false] \/ evs = [t_source true; t_dest false] ->
    handler_path (inr (server_error e), MkWorld (cache w) fs, evs)
| path_store_failed e fs evs :
    request_valid source_image dest_image = true ->
    TTLCache.contains (cache w) (now_in env) k = false ->
    evs = [t_source true; t_dest true; EvStore source_path false]
    \/ evs = [t_source true; t_dest true; EvStore source_path true;
              EvStore dest_path false] ->
    handler_path (inr (server_error e), MkWorld (cache w) fs, evs)
| path_stored fs :
    request_valid source_image dest_image = true ->
    TTLCache.contains (cache w) (now_in env) k = false ->
    handler_path
      (inr (result_response ("/" +:+ source_path) ("/" +:+ dest_path)),
       MkWorld (TTLCache.setitem (cache w) (now_set env) k
                  ("/" +:+ source_path, "/" +:+ dest_path)) fs,
       [t_source true; t_dest true; EvStore source_path true;
        EvStore dest_path true;
        EvCachePut k ("/" +:+ source_path, "/" +:+ dest_path)]).

End Paths.

End Pipeline.

(** ** Concrete scenarios

    A sample imaging capability: it decodes exactly the byte strings that
    begin with the PNG signature byte [0x89] and encodes every image. *)

Definition sample_open_convert_L (data : bytes) : Exn + bytes :=
  match data with
  | x89 :: _ => inr data
  | _ => inl (MkExn "UnidentifiedImageError" "cannot identify image file")
  end.

Definition sample_save_png (img : bytes) : (Exn * bytes) + bytes := inr img.

Definition sample_folder : string := "static/output".

Definition png_a : bytes := [x89; x50; x4e; x47; x01].
Definition png_b : bytes := [x89; x50; x4e; x47; x02].
Definition not_an_image : bytes := list_byte_of_string "not an image".

Definition upload_a : UploadFile := MkUpload (Some "a.png") png_a.
Definition upload_b : UploadFile := MkUpload (Some "b.JPG") png_b.

Definition empty_world : World := MkWorld [] ∅.

Definition sample_env (t : Z) (io1 io2 : IoOutcome) : Env :=
  MkEnv t t t (MkTemp "/tmp/tmp1.png" "/tmp/tmp2.png")
        (MkTemp "/tmp/tmp3.png" "/tmp/tmp4.png")
        "0123456789abcdef0123456789abcdef"
        "fedcba9876543210fedcba9876543210" io1 io2.

Definition disk_full : Exn := MkExn "OSError" "[Errno 28] No space left on device".

Definition sample_run (env : Env) (source_image dest_image : UploadFile)
    (w : World) : (Exn + Response) * World * list Event :=
  process_images bytes sample_open_convert_L sample_save_png sample_folder
    env source_image dest_image w.

Definition sample_transform (tn : TempNames) (data : bytes) (w : World)
  : (Exn + bytes) * World * list Event :=
  process_image bytes sample_open_convert_L sample_save_png tn data w.

Definition source_out : string :=
  "static/output/source_0123456789abcdef0123456789abcdef.png".
Definition dest_out : string :=
  "static/output/dest_fedcba9876543210fedcba9876543210.png".

(** Two real images: 1x1 RGB PNG files, one red pixel and one blue
    pixel (signature, IHDR, IDAT, IEND). *)
Definition red_png : bytes :=
  [
   x89; x50; x4e; x47; x0d; x0a; x1a; x0a; x00; x00; x00; x0d;
   x49; x48; x44; x52; x00; x00; x00; x01; x00; x00; x00; x01;
   x08; x02; x00; x00; x00; x90; x77; x53; xde; x00; x00; x00;
   x0c; x49; x44; x41; x54; x78; xda; x63; xf8; xcf; xc0; x00;
   x00; x03; x01; x01; x00; xf7; x03; x41; x43; x00; x00; x00;
   x00; x49; x45; x4e; x44; xae; x42; x60; x82].

Definition blue_png : bytes :=
  [
   x89; x50; x4e; x47; x0d; x0a; x1a; x0a; x00; x00; x00; x0d;
   x49; x48; x44; x52; x00; x00; x00; x01; x00; x00; x00; x01;
   x08; x02; x00; x00; x00; x90; x77; x53; xde; x00; x00; x00;
   x0c; x49; x44; x41; x54; x78; xda; x63; x60; x60; xf8; x0f;
   x00; x01; x03; x01; x00; x36; x74; x11; x40; x00; x00; x00;
   x00; x49; x45; x4e; x44; xae; x42; x60; x82].

Definition upload_red : UploadFile := MkUpload (Some "red.png") red_png.
Definition upload_blue : UploadFile := MkUpload (Some "blue.png") blue_png.


(** A request whose cache entry expires between the membership test (clock
    3609) and the read (clock 3610). *)
Definition expiry_race_env : Env :=
  MkEnv 3609 3610 3610 (MkTemp "/tmp/tmp5.png" "/tmp/tmp6.png")
        (MkTemp "/tmp/tmp7.png" "/tmp/tmp8.png")
        "00112233445566778899aabbccddeeff"
        "ffeeddccbbaa99887766554433221100" IoOk IoOk.

(** The exception a write to the output directory raises, if any. *)
Definition io_error (io : IoOutcome) : option Exn :=
  match io with
  | IoOk => None
  | IoFailMkdir e => Some e
  | IoFailOpen e => Some e
  | IoFailWrite e _ => Some e
  end.

(** ** Predicates used in the statements *)

(** [ext] is what follows the final [.] of [name]. *)
Definition suffix_after_final_dot (name ext : string) : Prop :=
  exists stem, name = stem +:+ "." +:+ ext /\ contains_char "." ext = false.




(** The paths a request may write: the temporary files of its two
    transforms and its two output files. *)
Definition handler_paths (folder : string) (env : Env) : list string :=
  [tmp_in (tmp_src env); tmp_out (tmp_src env);
   tmp_in (tmp_dst env); tmp_out (tmp_dst env);
   path_join folder ("source_" +:+ uuid_src env +:+ ".png");
   path_join folder ("dest_" +:+ uuid_dst env +:+ ".png")].


Arguments process_image : simpl never.
Arguments save_output_image : simpl never.

(** ** String lemmas *)

Lemma rsplit_last_Some c s before after :
  rsplit_last c s = Some (before, after) ->
  s = before +:+ String c after /\ contains_char c after = false.
Proof.
  revert before after. induction s as [|a r IH]; intros before after H.
  - discriminate.
  - simpl in H. destruct (rsplit_last c r) as [[h t]|] eqn:E.
    + inversion H; subst. destruct (IH _ _ eq_refl) as [-> Hn].
      split; [reflexivity | exact Hn].
    + destruct (Ascii.eqb a c) eqn:Ea; [|discriminate].
      inversion H; subst. apply Ascii.eqb_eq in Ea. subst a.
      split; [reflexivity|].
      clear IH H. induction after as [|b t IHt]; [reflexivity|].
      simpl in E. destruct (rsplit_last c t) as [[h' t']|]; [discriminate|].
      destruct (Ascii.eqb b c) eqn:Eb; [discriminate|].
      simpl. rewrite Eb. apply IHt. reflexivity.
Qed.

Lemma rsplit_last_None c s :
  rsplit_last c s = None <-> contains_char c s = false.
Proof.
  induction s as [|a r IH]; simpl; [tauto|].
  destruct (rsplit_last c r) as [[h t]|].
  - split; [discriminate|]. intros H. apply orb_false_iff in H.
    destruct H as [_ H]. apply IH in H. discriminate.
  - destruct (Ascii.eqb a c); simpl.
    + split; discriminate.
    + split; intros _; [apply IH|]; reflexivity.
Qed.

Lemma rsplit_last_append c stem ext :
  contains_char c ext = false ->
  rsplit_last c (stem +:+ String c ext) = Some (stem, ext).
Proof.
  intros H. induction stem as [|a r IH]; simpl.
  - apply rsplit_last_None in H. rewrite H, Ascii.eqb_refl. reflexivity.
  - rewrite IH. reflexivity.
Qed.

Lemma contains_char_append c stem ext :
  contains_char c (stem +:+ String c ext) = true.
Proof.
  induction stem as [|a r IH]; simpl.
  - rewrite Ascii.eqb_refl. reflexivity.
  - rewrite IH. apply orb_true_r.
Qed.

(** The index [[1]] of [allowed_file] exists whenever its guard holds. *)
Lemma rsplit1_ext s :
  contains_char "." s = true -> exists ext, rsplit1 "." s !! 1%nat = Some ext.
Proof.
  intros H. unfold rsplit1.
  destruct (rsplit_last "." s) as [[h t]|] eqn:E.
  - exists t. reflexivity.
  - apply rsplit_last_None in E. congruence.
Qed.

Lemma append_inj_length a b c d :
  String.length a = String.length c -> a +:+ b = c +:+ d -> a = c.
Proof.
  revert c. induction a as [|x a IH]; intros [|y c] Hl H; simpl in *;
    try discriminate; [reflexivity|].
  inversion H; subst. f_equal. apply IH; [lia | assumption].
Qed.

Lemma substring_prefix a b :
  substring 0 (String.length a) (a +:+ b) = a.
Proof.
  induction a as [|x a IH]; simpl.
  - destruct b; reflexivity.
  - rewrite IH. reflexivity.
Qed.

Lemma substring_whole a : substring 0 (String.length a) a = a.
Proof.
  induction a as [|x a IH]; simpl; [reflexivity | rewrite IH; reflexivity].
Qed.

Lemma substring_after a c b :
  substring (S (String.length a)) (String.length b) (a +:+ String c b) = b.
Proof.
  induction a as [|x a IH]; simpl.
  - apply substring_whole.
  - exact IH.
Qed.

(** ** Fingerprint lemmas *)



Lemma get_file_hash_length b : String.length (get_file_hash b) = 64%nat.
Proof.
  unfold get_file_hash, SHA256.hexdigest. destruct (SHA256.digest b).
  reflexivity.
Qed.


(** ** Validator *)

(** C3. [allowed_file] accepts a name exactly when it contains a [.] and
    the lowercased text after its final [.] is one of png, jpg, jpeg; it
    accepts "a.png" and "a.PNG" and rejects "a.txt", "noext" and the empty
    name.  Being a function of the name alone, it has no effect. *)
Theorem allowed_file_spec :
  (forall name,
      allowed_file name = true <->
      contains_char "." name = true
      /\ exists ext, suffix_after_final_dot name ext
                     /\ lower ext ∈ ALLOWED_EXTENSIONS)
  /\ allowed_file "a.png" = true
  /\ allowed_file "a.PNG" = true
  /\ allowed_file "a.txt" = false
  /\ allowed_file "noext" = false
  /\ allowed_file "" = false.
Proof.
  split; [|repeat split; reflexivity].
  intros name. unfold allowed_file, rsplit1. split.
  - intros H. apply andb_true_iff in H. destruct H as [Hc H].
    split; [exact Hc|].
    destruct (rsplit_last "." name) as [[h t]|] eqn:E; [|discriminate].
    simpl in H. apply bool_decide_eq_true in H.
    apply rsplit_last_Some in E. destruct E as [-> Hn].
    exists t. split; [|exact H]. exists h. split; [reflexivity | exact Hn].
  - intros [_ (ext & (stem & -> & Hn) & Hin)].
    change ("." +:+ ext) with (String "." ext).
    rewrite contains_char_append, (rsplit_last_append _ _ _ Hn). simpl.
    apply bool_decide_eq_true. exact Hin.
Qed.

(** C10. A name that is only a dot and an allowed extension, with an empty
    stem, is accepted: ".png", ".jpg" and ".jpeg". *)
Theorem allowed_file_empty_stem :
  allowed_file ".png" = true
  /\ allowed_file ".jpg" = true
  /\ allowed_file ".jpeg" = true.
Proof. repeat split; reflexivity. Qed.

(** ** Fingerprinter and cache key *)



(** C4. The cache key is the source fingerprint, a colon, and the
    destination fingerprint, in that order; two requests with identical
    source bytes and identical destination bytes get the same key,
    whatever their file names. *)
Theorem cache_key_deterministic :
  (forall s d : bytes,
      cache_key s d = get_file_hash s +:+ ":" +:+ get_file_hash d
      /\ substring 0 64 (cache_key s d) = get_file_hash s
      /\ substring 65 64 (cache_key s d) = get_file_hash d)
  /\ (forall source1 dest1 source2 dest2 : UploadFile,
         file_content source1 = file_content source2 ->
         file_content dest1 = file_content dest2 ->
         cache_key (file_content source1) (file_content dest1)
         = cache_key (file_content source2) (file_content dest2)).
Proof.
  split.
  - intros s d. split; [reflexivity|]. unfold cache_key.
    change (":" +:+ get_file_hash d) with (String ":" (get_file_hash d)).
    split.
    + rewrite <- (get_file_hash_length s) at 1. apply substring_prefix.
    + change 65%nat with (S 64).
      rewrite <- (get_file_hash_length s) at 1.
      rewrite <- (get_file_hash_length d) at 1.
      apply substring_after.
  - intros s1 d1 s2 d2 -> ->. reflexivity.
Qed.

Lemma cache_key_deterministic_witness :
  file_content upload_a = file_content (MkUpload (Some "copy.jpeg") png_a)
  /\ file_content upload_b = file_content (MkUpload (Some "other.png") png_b)
  /\ cache_key (file_content upload_a) (file_content upload_b)
     = cache_key (file_content (MkUpload (Some "copy.jpeg") png_a))
                 (file_content (MkUpload (Some "other.png") png_b)).
Proof.
  split; [reflexivity|]. split; [reflexivity|].
  apply (proj2 cache_key_deterministic); reflexivity.
Defined.

(** ** TTLCache lemmas *)

Lemma has_key_true k l : TTLCache.has_key k l = true <-> TTLCache.key l = k.
Proof. unfold TTLCache.has_key. apply String.eqb_eq. Qed.

Lemma has_key_other k k' l :
  k' <> k -> TTLCache.has_key k' l = true -> TTLCache.other_key k l = true.
Proof.
  intros Hne H. apply has_key_true in H. unfold TTLCache.other_key.
  apply negb_true_iff. apply not_true_iff_false. intros H'.
  apply has_key_true in H'. congruence.
Qed.

Lemma lookup_link_In k c l :
  TTLCache.lookup_link k c = Some l -> In l c /\ TTLCache.key l = k.
Proof.
  intros H. apply find_some in H. destruct H as [Hin Hk].
  split; [exact Hin | apply has_key_true; exact Hk].
Qed.

Lemma In_skipn {A} (x : A) n l : In x (skipn n l) -> In x l.
Proof.
  revert l. induction n as [|n IH]; intros [|y l] H; simpl in *; auto.
Qed.

Lemma find_filter_snoc_hit {A} (p : A -> bool) l x :
  p x = true -> List.find p (List.filter (fun y => negb (p y)) l ++ [x]) = Some x.
Proof.
  intros Hx. induction l as [|y l IH]; simpl.
  - rewrite Hx. reflexivity.
  - destruct (p y) eqn:Ey; simpl; [exact IH|]. rewrite Ey. exact IH.
Qed.

Lemma find_filter_snoc_miss {A} (p q : A -> bool) l x :
  (forall y, p y = true -> q y = true) -> p x = false ->
  List.find p (List.filter q l ++ [x]) = List.find p l.
Proof.
  intros Hpq Hx. induction l as [|y l IH]; simpl.
  - rewrite Hx. reflexivity.
  - destruct (p y) eqn:Ey.
    + rewrite (Hpq _ Ey). simpl. rewrite Ey. reflexivity.
    + destruct (q y); simpl; [rewrite Ey|]; exact IH.
Qed.

(** Right after [cache[k] = v] at [time], [k] maps to [v] until
    [time + ttl]. *)
Lemma lookup_setitem_same c time k v :
  TTLCache.lookup_link k (TTLCache.setitem c time k v)
  = Some (TTLCache.Link k v (time + TTLCache.ttl)).
Proof.
  unfold TTLCache.lookup_link, TTLCache.setitem.
  apply (find_filter_snoc_hit (TTLCache.has_key k)).
  apply has_key_true. reflexivity.
Qed.

(** A link found under another key after [cache[k] = v] was there before. *)
Lemma contains_setitem_other c time k v time' k' :
  k' <> k ->
  TTLCache.contains (TTLCache.setitem c time k v) time' k' = true ->
  exists l, In l c /\ TTLCache.key l = k' /\ TTLCache.live time' l = true.
Proof.
  intros Hne H. unfold TTLCache.contains in H.
  destruct (TTLCache.lookup_link k' _) as [l|] eqn:E; [|discriminate].
  apply lookup_link_In in E. destruct E as [Hin Hk].
  exists l. split; [|split; assumption].
  unfold TTLCache.setitem in Hin. apply in_app_or in Hin.
  destruct Hin as [Hin | [<- | []]]; [|simpl in Hk; congruence].
  apply filter_In in Hin. destruct Hin as [Hin _].
  assert (Hc1 : In l (TTLCache.expire c time)).
  { destruct (existsb _ _); [exact Hin | exact (In_skipn _ _ _ Hin)]. }
  apply filter_In in Hc1. tauto.
Qed.

(** Reading a key reorders the links but changes no lookup. *)
Lemma lookup_move_to_end k k' c :
  TTLCache.lookup_link k' (TTLCache.move_to_end k c) = TTLCache.lookup_link k' c.
Proof.
  unfold TTLCache.move_to_end.
  destruct (TTLCache.lookup_link k c) as [l|] eqn:E; [|reflexivity].
  destruct (String.eqb_spec k' k) as [->|Hne].
  - rewrite E. apply (find_filter_snoc_hit (TTLCache.has_key k)).
    apply find_some in E. tauto.
  - apply find_filter_snoc_miss.
    + intros y. apply has_key_other. exact Hne.
    + apply lookup_link_In in E. destruct E as [_ Hk].
      apply not_true_iff_false. intros H. apply has_key_true in H. congruence.
Qed.

(** C5. The key is order sensitive: when the two uploads have distinct
    fingerprints, swapping the roles gives a different key, and a lookup
    of the swapped key after the original result was cached can only find
    a link that was already stored under the swapped key itself. *)
Theorem cache_key_order_sensitive (a b : bytes) :
  get_file_hash a <> get_file_hash b ->
  cache_key a b <> cache_key b a
  /\ forall c time v time',
       TTLCache.contains (TTLCache.setitem c time (cache_key a b) v)
                         time' (cache_key b a) = true ->
       exists l, In l c /\ TTLCache.key l = cache_key b a
                 /\ TTLCache.live time' l = true.
Proof.
  intros Hne.
  assert (Hk : cache_key a b <> cache_key b a).
  { unfold cache_key. intros H. apply Hne.
    apply append_inj_length in H; [exact H|].
    rewrite !get_file_hash_length. reflexivity. }
  split; [exact Hk|].
  intros c time v time'. apply contains_setitem_other.
  intros H. apply Hk. symmetry. exact H.
Qed.

Lemma cache_key_order_sensitive_witness :
  get_file_hash png_a <> get_file_hash png_b
  /\ cache_key png_a png_b <> cache_key png_b png_a.
Proof.
  assert (H : get_file_hash png_a <> get_file_hash png_b).
  { vm_compute. discriminate. }
  split; [exact H|].
  exact (proj1 (cache_key_order_sensitive png_a png_b H)).
Defined.

(** ** Transformer and Store lemmas *)

Ltac run_monad :=
  unfold traced, try_except, bind, decode_gray, save_png, makedirs, open_wb,
    f_write, write_file, read_file, unlink, ret, raise,
    cache_contains, cache_getitem, cache_setitem; simpl.

Ltac shape_done :=
  first [ eexists (inl _), _; reflexivity
        | eexists (inr _), _; reflexivity ].

Section PipelineProperties.

Context {Image : Type}.
Variable open_convert : bytes -> Exn + Image.
Variable save : Image -> (Exn * bytes) + bytes.
Variable folder : string.

(** A transform touches only the file system and records one call. *)
Lemma process_image_shape tn data w :
  exists r fs,
    process_image Image open_convert save tn data w
    = (r, MkWorld (cache w) fs, [EvTransform data (returned r)]).
Proof.
  unfold process_image. run_monad.
  rewrite lookup_insert_eq.
  destruct (open_convert data) as [e|img]; simpl;
    [shape_done|].
  destruct (save img) as [[e part]|png]; simpl;
    [shape_done|].
  rewrite lookup_insert_eq. simpl. rewrite lookup_insert_eq. simpl.
  destruct (delete _ _ !! tmp_in tn); simpl; shape_done.
Qed.

Lemma process_image_decode_failure tn data w e :
  open_convert data = inl e ->
  process_image Image open_convert save tn data w
  = (inl e, MkWorld (cache w) (<[tmp_in tn := data]> (files w)),
     [EvTransform data false]).
Proof.
  intros H. unfold process_image. run_monad.
  rewrite lookup_insert_eq, H. reflexivity.
Qed.

Lemma process_image_encode_failure tn data w img e part :
  open_convert data = inr img -> save img = inl (e, part) ->
  process_image Image open_convert save tn data w
  = (inl e,
     MkWorld (cache w)
       (<[tmp_out tn := part]> (<[tmp_in tn := data]> (files w))),
     [EvTransform data false]).
Proof.
  intros H1 H2. unfold process_image. run_monad.
  rewrite lookup_insert_eq, H1. simpl. rewrite H2. simpl.
  rewrite insert_insert_eq. reflexivity.
Qed.

Lemma process_image_success tn data w img png :
  open_convert data = inr img -> save img = inr png ->
  tmp_in tn <> tmp_out tn ->
  process_image Image open_convert save tn data w
  = (inr png,
     MkWorld (cache w) (delete (tmp_in tn) (delete (tmp_out tn) (files w))),
     [EvTransform data true]).
Proof.
  intros H1 H2 Hne. unfold process_image. run_monad.
  rewrite lookup_insert_eq, H1. simpl. rewrite H2. simpl.
  rewrite lookup_insert_eq. simpl. rewrite lookup_insert_eq. simpl.
  rewrite lookup_delete_ne by congruence.
  rewrite !lookup_insert_ne by congruence.
  rewrite lookup_insert_eq. simpl.
  do 3 f_equal. apply map_eq. intros i.
  destruct (decide (i = tmp_in tn)) as [->|Hi];
    [rewrite !lookup_delete_eq; reflexivity|].
  rewrite !(lookup_delete_ne _ (tmp_in tn)) by congruence.
  destruct (decide (i = tmp_out tn)) as [->|Ho];
    [rewrite !lookup_delete_eq; reflexivity|].
  rewrite !lookup_delete_ne by congruence.
  rewrite !lookup_insert_ne by congruence. reflexivity.
Qed.

(** A store touches only the file system, records one call, and returns
    the joined path when it returns. *)
Lemma save_output_image_shape io data dir name w :
  exists r fs,
    save_output_image io data dir name w
    = (r, MkWorld (cache w) fs, [EvStore (path_join dir name) (returned r)])
    /\ forall p, r = inr p -> p = path_join dir name.
Proof.
  unfold save_output_image. run_monad.
  destruct w as [c fs0].
  destruct io; simpl;
    first [ eexists (inl _), _; split; [reflexivity | discriminate]
          | eexists (inr _), _; split; [reflexivity | congruence] ].
Qed.

(** ** Every run of the handler follows one of its paths *)

Lemma request_valid_intro source_image dest_image a b :
  filename source_image = Some a -> filename dest_image = Some b ->
  a <> "" -> b <> "" -> allowed_file a && allowed_file b = true ->
  request_valid source_image dest_image = true.
Proof.
  intros Ha Hb Na Nb Hal. unfold request_valid. rewrite Ha, Hb.
  apply String.eqb_neq in Na, Nb. rewrite Na, Nb. simpl.
  apply andb_true_iff in Hal. destruct Hal as [-> ->]. reflexivity.
Qed.

Lemma process_images_path env source_image dest_image w :
  handler_path folder env source_image dest_image w
    (process_images Image open_convert save folder env source_image dest_image w).
Proof.
  unfold process_images.
  destruct (filename source_image) as [a|] eqn:Ea;
    [|apply path_no_file; left; left; exact Ea].
  destruct (filename dest_image) as [b|] eqn:Eb;
    [|apply path_no_file; right; left; exact Eb].
  destruct (String.eqb_spec a "") as [->|Na];
    [apply path_no_file; left; right; exact Ea|].
  destruct (String.eqb_spec b "") as [->|Nb];
    [apply path_no_file; right; right; exact Eb|].
  simpl. destruct (allowed_file a && allowed_file b) eqn:Eal; simpl;
    [|eapply path_invalid_format; eauto].
  pose proof (request_valid_intro _ _ _ _ Ea Eb Na Nb Eal) as Hv.
  set (k := cache_key (file_content source_image) (file_content dest_image)).
  unfold bind at 1. unfold cache_contains at 1.
  destruct (TTLCache.contains (cache w) (now_in env) k) eqn:Ehit.
  - unfold bind, cache_getitem, ret, TTLCache.getitem.
    pose proof Ehit as Hl. unfold TTLCache.contains in Hl.
    destruct (TTLCache.lookup_link k (cache w)) as [l|] eqn:El;
      [|discriminate].
    destruct (TTLCache.live (now_get env) l) eqn:Elive; simpl.
    + eapply path_hit; eauto.
    + eapply path_hit_expired; eauto.
  - destruct (process_image_shape (tmp_src env) (file_content source_image) w)
      as (r1 & fs1 & E1).
    unfold try_except at 1. unfold bind at 1. rewrite E1.
    destruct r1 as [e1|sp]; simpl.
    { eapply path_transform_failed; eauto. }
    destruct (process_image_shape (tmp_dst env) (file_content dest_image)
                (MkWorld (cache w) fs1)) as (r2 & fs2 & E2).
    unfold bind at 1. rewrite E2. simpl in *.
    destruct r2 as [e2|dp]; simpl.
    { eapply path_transform_failed; eauto. }
    destruct (save_output_image_shape (io_src env) sp folder
                ("source_" +:+ uuid_src env +:+ ".png")
                (MkWorld (cache w) fs2)) as (r3 & fs3 & E3 & P3).
    unfold try_except at 1. unfold bind at 1. rewrite E3. simpl in *.
    destruct r3 as [e3|p1]; simpl.
    { eapply path_store_failed; eauto. }
    destruct (save_output_image_shape (io_dst env) dp folder
                ("dest_" +:+ uuid_dst env +:+ ".png")
                (MkWorld (cache w) fs3)) as (r4 & fs4 & E4 & P4).
    unfold bind at 1. rewrite E4. simpl in *.
    destruct r4 as [e4|p2]; simpl.
    { eapply path_store_failed; eauto. }
    rewrite (P3 _ eq_refl), (P4 _ eq_refl).
    apply path_stored; assumption.
Qed.

Lemma request_valid_names source_image dest_image :
  request_valid source_image dest_image = true ->
  exists a b,
    filename source_image = Some a /\ filename dest_image = Some b
    /\ a <> "" /\ b <> "" /\ allowed_file a && allowed_file b = true.
Proof.
  unfold request_valid. intros H.
  destruct (filename source_image) as [a|]; [|discriminate].
  destruct (filename dest_image) as [b|]; [|discriminate].
  exists a, b.
  destruct (String.eqb a "") eqn:Na; [discriminate|].
  destruct (String.eqb b "") eqn:Nb; [discriminate|].
  apply String.eqb_neq in Na, Nb. simpl in H. repeat split; auto.
Qed.

Lemma request_valid_has_names source_image dest_image :
  request_valid source_image dest_image = true ->
  ~ (no_name (filename source_image) \/ no_name (filename dest_image)).
Proof.
  intros H. apply request_valid_names in H.
  destruct H as (a & b & Ea & Eb & Na & Nb & _).
  unfold no_name. rewrite Ea, Eb. intros [[?|?]|[?|?]]; congruence.
Qed.

Ltac path_cases :=
  match goal with
  | o := process_images _ ?oc ?sv ?fd ?env ?s ?d ?w |- _ =>
      let P := fresh "P" in
      pose proof (process_images_path env s d w) as P;
      fold o in P; clearbody o; destruct P
  end;
  unfold run_result, run_world, run_events; simpl.

Ltac no_event :=
  repeat match goal with
         | H : False |- _ => destruct H
         | H : _ \/ _ |- _ => destruct H
         | H : In _ _ |- _ => progress simpl in H
         | H : _ = _ |- _ => discriminate H
         | H : ?x = _ |- _ => subst x
         end.

(** ** RequestHandler *)

(** C9. A missing or empty file name on either upload is answered by
    status 400 with the body [{"error": "No file selected"}]; two
    non-empty names of which either fails the extension rule are answered
    by status 400 with the body
    [{"error": "Invalid file format. Only PNG, JPG, JPEG allowed"}]. *)
Theorem validation_errors env source_image dest_image w :
  (no_name (filename source_image) \/ no_name (filename dest_image) ->
   process_images Image open_convert save folder env source_image dest_image w
   = (inr (JSONResponse 400 [("error", "No file selected")]), w, []))
  /\ (forall a b,
         filename source_image = Some a -> filename dest_image = Some b ->
         a <> "" -> b <> "" ->
         allowed_file a = false \/ allowed_file b = false ->
         process_images Image open_convert save folder env
           source_image dest_image w
         = (inr (JSONResponse 400
                   [("error",
                     "Invalid file format. Only PNG, JPG, JPEG allowed")]),
            w, [])).
Proof.
  unfold process_images, no_name. split.
  - intros H.
    destruct (filename source_image) as [a|]; [|reflexivity].
    destruct (filename dest_image) as [b|]; [|reflexivity].
    destruct H as [[H|H]|[H|H]]; try discriminate; inversion H; subst;
      simpl; [|rewrite orb_true_r]; reflexivity.
  - intros a b -> -> Na Nb Hal.
    apply String.eqb_neq in Na, Nb. rewrite Na, Nb. simpl.
    destruct Hal as [-> | ->]; [|rewrite andb_false_r]; reflexivity.
Qed.

(** C1. The cache is written only after full success: a put occurs only
    in a run whose two transforms and two stores all returned, and that
    run answers 200 with the stored locations; every run that answers
    with a 400 or 500 response leaves the cache exactly as it was; and a
    run without a put changes no lookup of the cache. *)
Theorem cache_written_only_after_full_success env source_image dest_image w :
  let o := process_images Image open_convert save folder env
             source_image dest_image w in
  (forall k v,
      In (EvCachePut k v) (run_events o) ->
      exists p1 p2,
        run_events o
        = [EvTransform (file_content source_image) true;
           EvTransform (file_content dest_image) true;
           EvStore p1 true; EvStore p2 true; EvCachePut k v]
        /\ k = cache_key (file_content source_image) (file_content dest_image)
        /\ v = ("/" +:+ p1, "/" +:+ p2)
        /\ run_result o
           = inr (JSONResponse 200 [("source_result", "/" +:+ p1);
                                    ("dest_result", "/" +:+ p2)]))
  /\ (forall resp,
         run_result o = inr resp -> status_code resp <> 200 ->
         cache (run_world o) = cache w
         /\ forall k v, ~ In (EvCachePut k v) (run_events o))
  /\ ((forall k v, ~ In (EvCachePut k v) (run_events o)) ->
      forall k, TTLCache.lookup_link k (cache (run_world o))
                = TTLCache.lookup_link k (cache w)).
Proof.
  intros o. split; [|split].
  - intros k v Hin. path_cases; simpl in Hin; no_event.
    match goal with H : EvCachePut _ _ = EvCachePut _ _ |- _ =>
      inversion H; subst end.
    eexists _, _. repeat split; reflexivity.
  - intros resp Hr Hs. path_cases; simpl in Hr;
      try (inversion Hr; subst; simpl in Hs; try congruence);
      try discriminate;
      (split; [reflexivity|]); intros k v Hin; no_event.
  - intros Hno k. path_cases; try reflexivity;
      try apply lookup_move_to_end.
    exfalso. eapply Hno. simpl. do 4 right. left. reflexivity.
Qed.

Lemma process_images_hit env source_image dest_image w :
  request_valid source_image dest_image = true ->
  let k := cache_key (file_content source_image) (file_content dest_image) in
  TTLCache.contains (cache w) (now_in env) k = true ->
  TTLCache.contains (cache w) (now_get env) k = true ->
  let o := process_images Image open_convert save folder env
             source_image dest_image w in
  exists l,
    TTLCache.lookup_link k (cache w) = Some l
    /\ run_result o
       = inr (JSONResponse 200 [("source_result", fst (TTLCache.value l));
                                ("dest_result", snd (TTLCache.value l))])
    /\ run_events o = []
    /\ files (run_world o) = files w
    /\ forall k', TTLCache.lookup_link k' (cache (run_world o))
                  = TTLCache.lookup_link k' (cache w).
Proof.
  intros Hv k Hin Hget o. subst k.
  path_cases.
  - exfalso. eapply request_valid_has_names; eauto.
  - apply request_valid_names in Hv.
    destruct Hv as (a' & b' & Ea & Eb & _ & _ & Hal). congruence.
  - exists l. repeat split; auto. intros k'. apply lookup_move_to_end.
  - exfalso. unfold TTLCache.contains in Hget.
    match goal with H : TTLCache.lookup_link _ _ = Some _ |- _ =>
      rewrite H in Hget end.
    congruence.
  - congruence.
  - congruence.
  - congruence.
Qed.

Lemma process_images_resubmission env1 env2 source_image dest_image
    source_image' dest_image' w resp :
  let o1 := process_images Image open_convert save folder env1
              source_image dest_image w in
  TTLCache.contains (cache w) (now_in env1)
    (cache_key (file_content source_image) (file_content dest_image)) = false ->
  run_result o1 = inr resp -> status_code resp = 200 ->
  request_valid source_image' dest_image' = true ->
  file_content source_image' = file_content source_image ->
  file_content dest_image' = file_content dest_image ->
  now_in env2 < now_set env1 + TTLCache.ttl ->
  now_get env2 < now_set env1 + TTLCache.ttl ->
  let o2 := process_images Image open_convert save folder env2
              source_image' dest_image' (run_world o1) in
  run_result o2 = inr resp
  /\ run_events o2 = []
  /\ files (run_world o2) = files (run_world o1).
Proof.
  intros o1 Hmiss Hr Hs Hv Es Ed Hin Hget o2.
  assert (Hk : forall t, t < now_set env1 + TTLCache.ttl ->
             TTLCache.contains (cache (run_world o1)) t
               (cache_key (file_content source_image') (file_content dest_image'))
             = true
             /\ exists l,
                 TTLCache.lookup_link
                   (cache_key (file_content source_image')
                              (file_content dest_image'))
                   (cache (run_world o1)) = Some l
                 /\ run_result o1
                    = inr (JSONResponse 200
                             [("source_result", fst (TTLCache.value l));
                              ("dest_result", snd (TTLCache.value l))])).
  { intros t Ht. rewrite Es, Ed. clear o2. revert Hr.
    path_cases; intros Hr; inversion Hr; subst; simpl in Hs;
      try discriminate; try congruence.
    unfold TTLCache.contains. rewrite lookup_setitem_same. simpl.
    split; [unfold TTLCache.live; simpl; lia|].
    eexists. split; reflexivity. }
  destruct (Hk _ Hin) as [Hc1 (l & El & Er)].
  destruct (Hk _ Hget) as [Hc2 _].
  destruct (process_images_hit env2 source_image' dest_image' (run_world o1)
              Hv Hc1 Hc2) as (l' & El' & R & Ev & Fs & _).
  fold o2 in R, Ev, Fs. rewrite El in El'. inversion El'; subst l'.
  rewrite R, Ev, Fs. rewrite Er in Hr. inversion Hr; subst resp. auto.
Qed.

(** X17. On a cache hit whose key is present both when the handler tests
    for it and when it reads it, the handler answers 200 with exactly the
    cached pair and does nothing else: no transform, no store and no put is
    recorded, the file system is unchanged and every cache lookup gives
    what it gave before.  A request resubmitted with the same bytes within
    the TTL of the run that cached the pair gets the same response as that
    run, with no call and no file written. *)
Theorem cache_hit_returns_cached_result :
  (forall env source_image dest_image w,
      request_valid source_image dest_image = true ->
      let k := cache_key (file_content source_image) (file_content dest_image) in
      TTLCache.contains (cache w) (now_in env) k = true ->
      TTLCache.contains (cache w) (now_get env) k = true ->
      let o := process_images Image open_convert save folder env
                 source_image dest_image w in
      exists l,
        TTLCache.lookup_link k (cache w) = Some l
        /\ run_result o
           = inr (JSONResponse 200
                    [("source_result", fst (TTLCache.value l));
                     ("dest_result", snd (TTLCache.value l))])
        /\ run_events o = []
        /\ files (run_world o) = files w
        /\ forall k', TTLCache.lookup_link k' (cache (run_world o))
                      = TTLCache.lookup_link k' (cache w))
  /\ (forall env1 env2 source_image dest_image source_image' dest_image' w resp,
         let o1 := process_images Image open_convert save folder env1
                     source_image dest_image w in
         TTLCache.contains (cache w) (now_in env1)
           (cache_key (file_content source_image) (file_content dest_image))
         = false ->
         run_result o1 = inr resp -> status_code resp = 200 ->
         request_valid source_image' dest_image' = true ->
         file_content source_image' = file_content source_image ->
         file_content dest_image' = file_content dest_image ->
         now_in env2 < now_set env1 + TTLCache.ttl ->
         now_get env2 < now_set env1 + TTLCache.ttl ->
         let o2 := process_images Image open_convert save folder env2
                     source_image' dest_image' (run_world o1) in
         run_result o2 = inr resp
         /\ run_events o2 = []
         /\ files (run_world o2) = files (run_world o1)).
Proof.
  split.
  - intros. apply process_images_hit; assumption.
  - intros. eapply process_images_resubmission; eassumption.
Qed.


(** A store returns the joined path or raises the exception of its
    outcome. *)
Lemma save_output_image_shape_error io data dir name w :
  exists fs,
    save_output_image io data dir name w
    = (match io_error io with
       | Some e => inl e
       | None => inr (path_join dir name)
       end,
       MkWorld (cache w) fs,
       [EvStore (path_join dir name)
          (match io_error io with Some _ => false | None => true end)]).
Proof.
  unfold save_output_image. run_monad. destruct w as [c fs0].
  destruct io; simpl; eexists; reflexivity.
Qed.



(** C6.  The failure paths of [process_image] leave its temporary files
    behind: when decoding fails the input file remains, and when encoding
    fails both the input file and the output file remain.  Only a
    successful run removes them. *)
Theorem process_image_leaves_temp_files_on_failure tn data w :
  let o := process_image Image open_convert save tn data w in
  (forall e,
      open_convert data = inl e ->
      run_result o = inl e
      /\ files (run_world o) !! tmp_in tn = Some data)
  /\ (forall img e part,
         open_convert data = inr img -> save img = inl (e, part) ->
         tmp_in tn <> tmp_out tn ->
         run_result o = inl e
         /\ files (run_world o) !! tmp_in tn = Some data
         /\ files (run_world o) !! tmp_out tn = Some part)
  /\ (forall img png,
         open_convert data = inr img -> save img = inr png ->
         tmp_in tn <> tmp_out tn ->
         run_result o = inr png
         /\ files (run_world o) !! tmp_in tn = None
         /\ files (run_world o) !! tmp_out tn = None).
Proof.
  intros o. subst o. split; [|split].
  - intros e H. rewrite (process_image_decode_failure _ _ _ _ H).
    unfold run_result, run_world. simpl. split; [reflexivity|].
    apply lookup_insert_eq.
  - intros img e part H1 H2 Hne.
    rewrite (process_image_encode_failure _ _ _ _ _ _ H1 H2).
    unfold run_result, run_world. simpl. split; [reflexivity|]. split.
    + rewrite lookup_insert_ne by congruence. apply lookup_insert_eq.
    + apply lookup_insert_eq.
  - intros img png H1 H2 Hne.
    rewrite (process_image_success _ _ _ _ _ H1 H2 Hne).
    unfold run_result, run_world. simpl. split; [reflexivity|]. split.
    + apply lookup_delete_eq.
    + rewrite lookup_delete_ne by congruence. apply lookup_delete_eq.
Qed.

End PipelineProperties.


(** ** The properties on concrete requests *)

Lemma validation_errors_witness :
  (no_name (filename (MkUpload None png_a)) \/ no_name (filename upload_b))
  /\ sample_run (sample_env 10 IoOk IoOk) (MkUpload None png_a) upload_b
       empty_world
     = (inr (JSONResponse 400 [("error", "No file selected")]),
        empty_world, []).
Proof.
  assert (H : no_name (filename (MkUpload None png_a))
              \/ no_name (filename upload_b)) by (left; left; reflexivity).
  split; [exact H|].
  exact (proj1 (validation_errors sample_open_convert_L sample_save_png
                  sample_folder (sample_env 10 IoOk IoOk)
                  (MkUpload None png_a) upload_b empty_world) H).
Defined.

Lemma cache_written_only_after_full_success_witness :
  let o := sample_run (sample_env 10 IoOk IoOk) upload_a upload_b empty_world in
  In (EvCachePut (cache_key png_a png_b) ("/" +:+ source_out, "/" +:+ dest_out))
     (run_events o)
  /\ exists p1 p2,
       run_events o
       = [EvTransform png_a true; EvTransform png_b true;
          EvStore p1 true; EvStore p2 true;
          EvCachePut (cache_key png_a png_b)
            ("/" +:+ source_out, "/" +:+ dest_out)]
       /\ cache_key png_a png_b = cache_key png_a png_b
       /\ ("/" +:+ source_out, "/" +:+ dest_out) = ("/" +:+ p1, "/" +:+ p2)
       /\ run_result o
          = inr (JSONResponse 200 [("source_result", "/" +:+ p1);
                                   ("dest_result", "/" +:+ p2)]).
Proof.
  intros o.
  assert (H : In (EvCachePut (cache_key png_a png_b)
                    ("/" +:+ source_out, "/" +:+ dest_out)) (run_events o)).
  { vm_compute. do 4 right. left. reflexivity. }
  split; [exact H|].
  exact (proj1 (cache_written_only_after_full_success sample_open_convert_L
                  sample_save_png sample_folder (sample_env 10 IoOk IoOk)
                  upload_a upload_b empty_world) _ _ H).
Defined.

Lemma cache_hit_returns_cached_result_witness :
  let o1 := sample_run (sample_env 10 IoOk IoOk) upload_a upload_b empty_world in
  let o2 := sample_run (sample_env 20 IoOk IoOk) upload_a upload_b
              (run_world o1) in
  run_result o2
  = inr (JSONResponse 200 [("source_result", "/" +:+ source_out);
                           ("dest_result", "/" +:+ dest_out)])
  /\ run_events o2 = []
  /\ files (run_world o2) = files (run_world o1).
Proof.
  intros o1 o2.
  apply (proj2 (cache_hit_returns_cached_result sample_open_convert_L
                  sample_save_png sample_folder)
           (sample_env 10 IoOk IoOk) (sample_env 20 IoOk IoOk)
           upload_a upload_b upload_a upload_b empty_world).
  - reflexivity.
  - vm_compute. reflexivity.
  - reflexivity.
  - reflexivity.
  - reflexivity.
  - reflexivity.
  - vm_compute. reflexivity.
  - vm_compute. reflexivity.
Defined.


Lemma process_image_leaves_temp_files_on_failure_witness :
  let tn := MkTemp "/tmp/tmp1.png" "/tmp/tmp2.png" in
  let o := sample_transform tn not_an_image empty_world in
  sample_open_convert_L not_an_image
  = inl (MkExn "UnidentifiedImageError" "cannot identify image file")
  /\ files empty_world !! "/tmp/tmp1.png" = None
  /\ run_result o
     = inl (MkExn "UnidentifiedImageError" "cannot identify image file")
  /\ files (run_world o) !! "/tmp/tmp1.png" = Some not_an_image.
Proof.
  intros tn o.
  assert (H : sample_open_convert_L not_an_image
              = inl (MkExn "UnidentifiedImageError"
                       "cannot identify image file")) by reflexivity.
  split; [exact H|]. split; [reflexivity|].
  exact (proj1 (process_image_leaves_temp_files_on_failure
                  sample_open_convert_L sample_save_png tn not_an_image
                  empty_world) _ H).
Defined.


(** C2.  The claim fails when the cached entry expires between the
    handler's membership test and its read.  A first request with two
    real images is answered 200 and cached at clock 10, so the entry
    lives until 3610.  The same images are submitted again: at the test
    (clock 3609) the key is present, at the read (clock 3610) it has
    expired, and instead of the cached pair the handler lets the
    [KeyError] of [cache[cache_key]] escape. *)
Theorem cache_hit_expired_at_read :
  let o1 := sample_run (sample_env 10 IoOk IoOk) upload_red upload_blue
              empty_world in
  let o2 := sample_run expiry_race_env upload_red upload_blue (run_world o1) in
  let k := cache_key red_png blue_png in
  run_result o1
  = inr (JSONResponse 200 [("source_result", "/" +:+ source_out);
                           ("dest_result", "/" +:+ dest_out)])
  /\ TTLCache.contains (cache (run_world o1)) (now_in expiry_race_env) k = true
  /\ TTLCache.contains (cache (run_world o1)) (now_get expiry_race_env) k
     = false
  /\ run_result o2 = inl (MkExn "KeyError" (repr_key k))
  /\ run_events o2 = [].
Proof.
  intros o1 o2 k.
  split; [vm_compute; reflexivity|].
  split; [vm_compute; reflexivity|].
  split; [vm_compute; reflexivity|].
  split; [vm_compute; reflexivity|].
  vm_compute. reflexivity.
Qed.


(** * Further properties of the code *)

(** ** Validator: letter case and suffix form *)

Lemma lower_char_dot a : Ascii.eqb (lower_char a) "." = Ascii.eqb a ".".
Proof. destruct a as [[] [] [] [] [] [] [] []]; reflexivity. Qed.

Lemma lower_char_idem a : lower_char (lower_char a) = lower_char a.
Proof. destruct a as [[] [] [] [] [] [] [] []]; reflexivity. Qed.

Lemma lower_idem s : lower (lower s) = lower s.
Proof.
  induction s as [|a r IH]; simpl; [reflexivity|].
  rewrite lower_char_idem, IH. reflexivity.
Qed.

Lemma contains_dot_lower s :
  contains_char "." (lower s) = contains_char "." s.
Proof.
  induction s as [|a r IH]; simpl; [reflexivity|].
  rewrite lower_char_dot, IH. reflexivity.
Qed.

Lemma rsplit_last_lower s :
  rsplit_last "." (lower s)
  = match rsplit_last "." s with
    | Some (before, after) => Some (lower before, lower after)
    | None => None
    end.
Proof.
  induction s as [|a r IH]; simpl; [reflexivity|].
  rewrite IH, lower_char_dot.
  destruct (rsplit_last "." r) as [[h t]|]; [reflexivity|].
  destruct (Ascii.eqb a "."); reflexivity.
Qed.

Lemma allowed_extension_cases ext :
  ext ∈ ALLOWED_EXTENSIONS <-> ext = "png" \/ ext = "jpg" \/ ext = "jpeg".
Proof.
  unfold ALLOWED_EXTENSIONS.
  rewrite !elem_of_union, !elem_of_singleton. tauto.
Qed.

Lemma allowed_extension_no_dot ext :
  lower ext ∈ ALLOWED_EXTENSIONS -> contains_char "." ext = false.
Proof.
  intros H. rewrite <- contains_dot_lower.
  apply allowed_extension_cases in H.
  destruct H as [-> | [-> | ->]]; reflexivity.
Qed.

(** X1. The validator ignores letter case: a name and its lowercased form
    get the same verdict. *)
Theorem allowed_file_case_insensitive name :
  allowed_file (lower name) = allowed_file name.
Proof.
  unfold allowed_file, rsplit1.
  rewrite contains_dot_lower, rsplit_last_lower.
  destruct (rsplit_last "." name) as [[h t]|]; [|reflexivity].
  simpl. rewrite lower_idem. reflexivity.
Qed.

(** X2. The validator is a suffix test: a name is accepted exactly when it
    ends with a dot followed by png, jpg or jpeg in any letter case,
    whatever precedes that dot (other dots and separators included). *)
Theorem allowed_file_suffix name :
  allowed_file name = true <->
  exists stem ext,
    name = stem +:+ "." +:+ ext
    /\ (lower ext = "png" \/ lower ext = "jpg" \/ lower ext = "jpeg").
Proof.
  unfold allowed_file, rsplit1. split.
  - intros H. apply andb_true_iff in H. destruct H as [_ H].
    destruct (rsplit_last "." name) as [[h t]|] eqn:E; [|discriminate].
    simpl in H. apply bool_decide_eq_true in H.
    apply rsplit_last_Some in E. destruct E as [-> _].
    exists h, t. split; [reflexivity|].
    apply allowed_extension_cases. exact H.
  - intros (stem & ext & -> & H). apply allowed_extension_cases in H.
    change ("." +:+ ext) with (String "." ext).
    rewrite contains_char_append,
      (rsplit_last_append _ _ _ (allowed_extension_no_dot _ H)).
    simpl. apply bool_decide_eq_true. exact H.
Qed.

(** ** Cache key: nothing is lost by joining the fingerprints *)

Lemma append_cancel_l a x y : a +:+ x = a +:+ y -> x = y.
Proof.
  induction a as [|c a IH]; simpl; intros H; [exact H|].
  inversion H. auto.
Qed.

(** X3. Two pairs of uploads get the same cache key exactly when their
    source fingerprints agree and their destination fingerprints agree. *)
Theorem cache_key_injective (s1 d1 s2 d2 : bytes) :
  cache_key s1 d1 = cache_key s2 d2 <->
  get_file_hash s1 = get_file_hash s2 /\ get_file_hash d1 = get_file_hash d2.
Proof.
  unfold cache_key. split.
  - intros H.
    assert (Hs : get_file_hash s1 = get_file_hash s2).
    { apply append_inj_length in H; [exact H|].
      rewrite !get_file_hash_length. reflexivity. }
    split; [exact Hs|]. rewrite Hs in H.
    apply append_cancel_l in H. apply (append_cancel_l ":") in H. exact H.
  - intros [-> ->]. reflexivity.
Qed.

(** ** Store: what a write leaves behind *)

(** X4. A store that succeeds returns [os.path.join(output_dir,
    output_name)]; afterwards that path holds exactly the given bytes
    (whatever it held before), every other path is as it was, and the
    cache is untouched. *)
Theorem save_output_image_roundtrip data dir name w :
  let o := save_output_image IoOk data dir name w in
  run_result o = inr (path_join dir name)
  /\ files (run_world o) !! path_join dir name = Some data
  /\ (forall p, p <> path_join dir name ->
                files (run_world o) !! p = files w !! p)
  /\ cache (run_world o) = cache w.
Proof.
  unfold save_output_image. run_monad.
  unfold run_result, run_world. simpl.
  split; [reflexivity|]. split; [apply lookup_insert_eq|].
  split; [|reflexivity].
  intros p Hp. rewrite !lookup_insert_ne by congruence. reflexivity.
Qed.

(** X5. A store that fails re-raises the very exception it caught.  When
    [os.makedirs] or [open] raised, the state is exactly as before; when
    [f.write] raised, the target holds the bytes written so far and
    every other path is as it was. *)
Theorem save_output_image_failure data dir name w e :
  save_output_image (IoFailMkdir e) data dir name w
  = (inl e, w, [EvStore (path_join dir name) false])
  /\ save_output_image (IoFailOpen e) data dir name w
     = (inl e, w, [EvStore (path_join dir name) false])
  /\ forall n,
       let o := save_output_image (IoFailWrite e n) data dir name w in
       run_result o = inl e
       /\ files (run_world o) !! path_join dir name = Some (firstn n data)
       /\ (forall p, p <> path_join dir name ->
                     files (run_world o) !! p = files w !! p)
       /\ cache (run_world o) = cache w.
Proof.
  unfold save_output_image. run_monad. destruct w as [c fs].
  split; [reflexivity|]. split; [reflexivity|].
  intros n. unfold run_result, run_world. simpl.
  split; [reflexivity|]. split; [apply lookup_insert_eq|].
  split; [|reflexivity].
  intros p Hp. rewrite !lookup_insert_ne by congruence. reflexivity.
Qed.

Lemma ends_with_sep_spec s :
  ends_with_sep s = true <-> exists pre, s = pre +:+ "/".
Proof.
  split.
  - induction s as [|a r IH]; simpl; [discriminate|].
    destruct r as [|b r'].
    + intros H. apply Ascii.eqb_eq in H. subst a. exists "". reflexivity.
    + intros H. destruct (IH H) as [pre Hp]. exists (String a pre).
      rewrite Hp. reflexivity.
  - intros [pre ->]. induction pre as [|c pre IH]; [reflexivity|].
    simpl. destruct (pre +:+ "/") eqn:E; [|exact IH].
    destruct pre; discriminate E.
Qed.

(** X8. The two output paths of a request never coincide, even when the
    two random identifiers do.  Each is the output folder followed
    directly by the file name when the folder is empty or ends with a
    separator, and the folder, one separator and the file name
    otherwise. *)
Theorem output_paths_distinct folder u1 u2 :
  let s := "source_" +:+ u1 +:+ ".png" in
  let d := "dest_" +:+ u2 +:+ ".png" in
  path_join folder s <> path_join folder d
  /\ (folder = "" \/ (exists pre, folder = pre +:+ "/") ->
      path_join folder s = folder +:+ s /\ path_join folder d = folder +:+ d)
  /\ (folder <> "" -> (forall pre, folder <> pre +:+ "/") ->
      path_join folder s = folder +:+ "/" +:+ s
      /\ path_join folder d = folder +:+ "/" +:+ d).
Proof.
  intros s d. subst s d. unfold path_join. simpl.
  destruct (String.eqb_spec folder "") as [E|E];
    destruct (ends_with_sep folder) eqn:S; simpl.
  - split; [intros H; apply append_cancel_l in H; discriminate H|].
    split; [intros _; split; reflexivity | intros N; contradiction].
  - split; [intros H; apply append_cancel_l in H; discriminate H|].
    split; [intros _; split; reflexivity | intros N; contradiction].
  - split; [intros H; apply append_cancel_l in H; discriminate H|].
    split; [intros _; split; reflexivity|].
    intros _ N. apply ends_with_sep_spec in S. destruct S as [pre Hp].
    destruct (N pre Hp).
  - split; [intros H; apply append_cancel_l in H; discriminate H|].
    split; [|intros _ _; split; reflexivity].
    intros [H|H]; [contradiction|].
    apply ends_with_sep_spec in H. congruence.
Qed.

Ltac follow_path :=
  match goal with
  | o := process_images _ ?oc ?sv ?fd ?env ?s ?d ?w |- _ =>
      let P := fresh "P" in
      pose proof (process_images_path oc sv fd env s d w) as P;
      fold o in P; clearbody o; destruct P
  end;
  unfold run_result, run_world, run_events; simpl.

Ltac split_events :=
  repeat match goal with
         | H : False |- _ => destruct H
         | H : _ \/ _ |- _ => destruct H
         | H : In _ _ |- _ => progress simpl in H
         | H : _ = _ |- _ => discriminate H
         | H : ?x = _ |- _ => subst x
         end.

Section PipelineFurther.

Context {Image : Type}.
Variable open_convert : bytes -> Exn + Image.
Variable save : Image -> (Exn * bytes) + bytes.
Variable folder : string.

(** ** Transformer: cleanup on success and frame *)

(** A transform returns only when decoding and encoding both succeeded
    and its two temporary names differ. *)
Lemma process_image_returns tn data w out w' evs :
  process_image Image open_convert save tn data w = (inr out, w', evs) ->
  exists img,
    open_convert data = inr img /\ save img = inr out
    /\ tmp_in tn <> tmp_out tn.
Proof.
  intros H. destruct (open_convert data) as [e|img] eqn:E1.
  { rewrite (process_image_decode_failure _ _ _ _ _ _ E1) in H.
    discriminate H. }
  destruct (save img) as [[e part]|png] eqn:E2.
  { rewrite (process_image_encode_failure _ _ _ _ _ _ _ _ E1 E2) in H.
    discriminate H. }
  destruct (decide (tmp_in tn = tmp_out tn)) as [Heq|Hne].
  - exfalso. revert H. unfold process_image. run_monad.
    rewrite lookup_insert_eq, E1. simpl. rewrite E2. simpl.
    rewrite Heq. rewrite lookup_insert_eq. simpl.
    rewrite lookup_insert_eq. simpl. rewrite lookup_delete_eq. simpl.
    discriminate.
  - rewrite (process_image_success _ _ _ _ _ _ _ E1 E2 Hne) in H.
    inversion H; subst. exists img. auto.
Qed.

(** X6. A transform that returns has cleaned up after itself: what it
    returns is exactly what the encoder produced for the decoded upload,
    both temporary files are gone, and if the two temporary names were
    fresh the whole state is exactly as the transform found it. *)
Theorem process_image_success_restores_state tn data w out :
  let o := process_image Image open_convert save tn data w in
  run_result o = inr out ->
  (exists img, open_convert data = inr img /\ save img = inr out)
  /\ files (run_world o) !! tmp_in tn = None
  /\ files (run_world o) !! tmp_out tn = None
  /\ (files w !! tmp_in tn = None -> files w !! tmp_out tn = None ->
      o = (inr out, w, [EvTransform data true])).
Proof.
  intros o Hr.
  assert (Eo : process_image Image open_convert save tn data w = o)
    by reflexivity.
  clearbody o. destruct o as [[r w'] evs].
  unfold run_result in Hr. simpl in Hr.
  subst r. destruct (process_image_returns _ _ _ _ _ _ Eo)
    as (img & E1 & E2 & Hne).
  rewrite (process_image_success _ _ _ _ _ _ _ E1 E2 Hne) in Eo.
  inversion Eo; subst. unfold run_world. simpl.
  split; [exists img; auto|].
  split; [apply lookup_delete_eq|].
  split; [rewrite lookup_delete_ne by congruence; apply lookup_delete_eq|].
  intros Fi Fo.
  rewrite (delete_id _ (tmp_out tn)) by exact Fo.
  rewrite (delete_id _ (tmp_in tn)) by exact Fi.
  destruct w; reflexivity.
Qed.

Lemma process_image_shape_frame tn data w :
  exists r fs,
    process_image Image open_convert save tn data w
    = (r, MkWorld (cache w) fs, [EvTransform data (returned r)])
    /\ forall p, p <> tmp_in tn -> p <> tmp_out tn ->
                 fs !! p = files w !! p.
Proof.
  unfold process_image. run_monad.
  rewrite lookup_insert_eq.
  destruct (open_convert data) as [e|img]; simpl.
  { eexists (inl _), _. split; [reflexivity|].
    intros p Hi Ho. rewrite lookup_insert_ne by congruence. reflexivity. }
  destruct (save img) as [[e part]|png]; simpl.
  { eexists (inl _), _. split; [reflexivity|].
    intros p Hi Ho. rewrite !lookup_insert_ne by congruence. reflexivity. }
  rewrite lookup_insert_eq. simpl. rewrite lookup_insert_eq. simpl.
  destruct (delete _ _ !! tmp_in tn); simpl.
  - eexists (inr _), _. split; [reflexivity|].
    intros p Hi Ho. rewrite !lookup_delete_ne by congruence.
    rewrite !lookup_insert_ne by congruence. reflexivity.
  - eexists (inl _), _. split; [reflexivity|].
    intros p Hi Ho. rewrite !lookup_delete_ne by congruence.
    rewrite !lookup_insert_ne by congruence. reflexivity.
Qed.

(** X7. Whether it returns or raises, a transform never writes the cache
    and never creates, changes or removes a file other than its own two
    temporary files. *)
Theorem process_image_frame tn data w :
  let o := process_image Image open_convert save tn data w in
  cache (run_world o) = cache w
  /\ forall p, p <> tmp_in tn -> p <> tmp_out tn ->
               files (run_world o) !! p = files w !! p.
Proof.
  intros o. subst o.
  destruct (process_image_shape_frame tn data w) as (r & fs & E & F).
  rewrite E. unfold run_world. simpl. split; [reflexivity | exact F].
Qed.

(** ** RequestHandler: order of the steps, failures, success *)

Lemma output_paths_ne u1 u2 :
  path_join folder ("source_" +:+ u1 +:+ ".png")
  <> path_join folder ("dest_" +:+ u2 +:+ ".png").
Proof.
  unfold path_join. simpl.
  destruct (String.eqb folder "" || ends_with_sep folder);
    intros H; apply append_cancel_l in H; discriminate H.
Qed.

Lemma save_output_image_ok data dir name w :
  save_output_image IoOk data dir name w
  = (inr (path_join dir name),
     MkWorld (cache w) (<[path_join dir name := data]> (files w)),
     [EvStore (path_join dir name) true]).
Proof.
  unfold save_output_image. run_monad. rewrite insert_insert_eq. reflexivity.
Qed.

Lemma save_output_image_shape_frame io data dir name w :
  exists r fs,
    save_output_image io data dir name w
    = (r, MkWorld (cache w) fs, [EvStore (path_join dir name) (returned r)])
    /\ forall p, p <> path_join dir name -> fs !! p = files w !! p.
Proof.
  unfold save_output_image. run_monad. destruct w as [c fs0].
  destruct io; simpl;
    first [ eexists (inl _), _; split; [reflexivity|]
          | eexists (inr _), _; split; [reflexivity|] ];
    intros p Hp; simpl; rewrite ?lookup_insert_ne by congruence; reflexivity.
Qed.

(** Unfold the handler up to the cache test of a valid request. *)
Ltac enter_handler Hv :=
  unfold process_images;
  let a := fresh "a" in let b := fresh "b" in
  let Ea := fresh "Ea" in let Eb := fresh "Eb" in
  let Na := fresh "Na" in let Nb := fresh "Nb" in
  let Hal := fresh "Hal" in
  destruct (request_valid_names _ _ Hv) as (a & b & Ea & Eb & Na & Nb & Hal);
  rewrite Ea, Eb; apply String.eqb_neq in Na, Nb; rewrite Na, Nb, Hal;
  simpl; unfold bind at 1; unfold cache_contains at 1.

(** X9. The handler performs its steps in a fixed order and stops at the
    first failure: the calls of a run are a prefix of transform source,
    transform destination, store source, store destination, put, in which
    only the last call made can have failed.  In particular no store is
    attempted before both transforms returned, and the destination is not
    transformed after the source failed. *)
Theorem process_images_trace_shape env source_image dest_image w :
  let evs := run_events (process_images Image open_convert save folder env
                           source_image dest_image w) in
  let ts := EvTransform (file_content source_image) in
  let td := EvTransform (file_content dest_image) in
  let sp := path_join folder ("source_" +:+ uuid_src env +:+ ".png") in
  let dp := path_join folder ("dest_" +:+ uuid_dst env +:+ ".png") in
  evs = []
  \/ evs = [ts false]
  \/ evs = [ts true; td false]
  \/ evs = [ts true; td true; EvStore sp false]
  \/ evs = [ts true; td true; EvStore sp true; EvStore dp false]
  \/ evs = [ts true; td true; EvStore sp true; EvStore dp true;
            EvCachePut (cache_key (file_content source_image)
                                  (file_content dest_image))
                       ("/" +:+ sp, "/" +:+ dp)].
Proof.
  intros evs ts td sp dp. subst evs ts td sp dp.
  set (o := process_images Image open_convert save folder env
              source_image dest_image w).
  follow_path; split_events; tauto.
Qed.

(** X16. Every response the handler returns has status 200, 400 or 500,
    and a failure of a transform or of a store never escapes it as an
    exception: whenever an exception does escape, no transform, store or
    put had been called. *)
Theorem process_images_status_codes env source_image dest_image w :
  let o := process_images Image open_convert save folder env
             source_image dest_image w in
  match run_result o with
  | inr resp =>
      status_code resp = 200 \/ status_code resp = 400
      \/ status_code resp = 500
  | inl _ => run_events o = []
  end.
Proof.
  intros o. follow_path; auto.
Qed.


Lemma process_images_success_run env source_image dest_image w
    img_s png_s img_d png_d :
  request_valid source_image dest_image = true ->
  TTLCache.contains (cache w) (now_in env)
    (cache_key (file_content source_image) (file_content dest_image)) = false ->
  open_convert (file_content source_image) = inr img_s ->
  save img_s = inr png_s ->
  open_convert (file_content dest_image) = inr img_d ->
  save img_d = inr png_d ->
  tmp_in (tmp_src env) <> tmp_out (tmp_src env) ->
  tmp_in (tmp_dst env) <> tmp_out (tmp_dst env) ->
  io_src env = IoOk -> io_dst env = IoOk ->
  let k := cache_key (file_content source_image) (file_content dest_image) in
  let sp := path_join folder ("source_" +:+ uuid_src env +:+ ".png") in
  let dp := path_join folder ("dest_" +:+ uuid_dst env +:+ ".png") in
  process_images Image open_convert save folder env source_image dest_image w
  = (inr (JSONResponse 200 [("source_result", "/" +:+ sp);
                            ("dest_result", "/" +:+ dp)]),
     MkWorld
       (TTLCache.setitem (cache w) (now_set env) k ("/" +:+ sp, "/" +:+ dp))
       (<[dp := png_d]>
          (<[sp := png_s]>
             (delete (tmp_in (tmp_dst env))
                (delete (tmp_out (tmp_dst env))
                   (delete (tmp_in (tmp_src env))
                      (delete (tmp_out (tmp_src env)) (files w))))))),
     [EvTransform (file_content source_image) true;
      EvTransform (file_content dest_image) true;
      EvStore sp true; EvStore dp true;
      EvCachePut k ("/" +:+ sp, "/" +:+ dp)]).
Proof.
  intros Hv Hmiss Ds Ss Dd Sd Ns Nd Is Id k sp dp. subst k sp dp.
  enter_handler Hv. rewrite Hmiss.
  unfold try_except at 1. unfold bind at 1.
  rewrite (process_image_success _ _ _ _ _ _ _ Ds Ss Ns). simpl.
  unfold bind at 1.
  rewrite (process_image_success _ _ _ _ _ _ _ Dd Sd Nd). simpl.
  unfold try_except at 1. unfold bind at 1.
  rewrite Is, save_output_image_ok. simpl.
  unfold bind at 1. rewrite Id, save_output_image_ok. simpl.
  reflexivity.
Qed.

Lemma save_output_image_returns io data dir name w p w' evs :
  save_output_image io data dir name w = (inr p, w', evs) -> io = IoOk.
Proof.
  destruct (save_output_image_shape_error io data dir name w) as (fs & E).
  rewrite E. destruct io; simpl; intros H; [reflexivity | discriminate H ..].
Qed.

(** A 200 answer on a miss comes only from the run in which both uploads
    decoded and encoded and both writes succeeded. *)
Lemma process_images_200_inversion env source_image dest_image w resp :
  TTLCache.contains (cache w) (now_in env)
    (cache_key (file_content source_image) (file_content dest_image)) = false ->
  run_result (process_images Image open_convert save folder env
                source_image dest_image w) = inr resp ->
  status_code resp = 200 ->
  request_valid source_image dest_image = true
  /\ exists img_s png_s img_d png_d,
       open_convert (file_content source_image) = inr img_s
       /\ save img_s = inr png_s
       /\ open_convert (file_content dest_image) = inr img_d
       /\ save img_d = inr png_d
       /\ tmp_in (tmp_src env) <> tmp_out (tmp_src env)
       /\ tmp_in (tmp_dst env) <> tmp_out (tmp_dst env)
       /\ io_src env = IoOk /\ io_dst env = IoOk.
Proof.
  intros Hmiss Hr Hs.
  assert (Hv : request_valid source_image dest_image = true).
  { revert Hr.
    set (o := process_images Image open_convert save folder env
                source_image dest_image w).
    follow_path; intros Hr; inversion Hr; subst; simpl in Hs;
      try discriminate Hs; try congruence; assumption. }
  split; [exact Hv|].
  revert Hr. enter_handler Hv. rewrite Hmiss.
  unfold try_except at 1. unfold bind at 1.
  destruct (process_image Image open_convert save (tmp_src env)
              (file_content source_image) w) as [[r1 w1] t1] eqn:E1.
  destruct r1 as [e1|sp]; simpl;
    [intros Hr; inversion Hr; subst; discriminate Hs|].
  unfold bind at 1.
  destruct (process_image Image open_convert save (tmp_dst env)
              (file_content dest_image) w1) as [[r2 w2] t2] eqn:E2.
  destruct r2 as [e2|dp]; simpl;
    [intros Hr; inversion Hr; subst; discriminate Hs|].
  unfold try_except at 1. unfold bind at 1.
  destruct (save_output_image (io_src env) sp folder
              ("source_" +:+ uuid_src env +:+ ".png") w2)
    as [[r3 w3] t3] eqn:E3.
  destruct r3 as [e3|p1]; simpl;
    [intros Hr; inversion Hr; subst; discriminate Hs|].
  unfold bind at 1.
  destruct (save_output_image (io_dst env) dp folder
              ("dest_" +:+ uuid_dst env +:+ ".png") w3)
    as [[r4 w4] t4] eqn:E4.
  destruct r4 as [e4|p2]; simpl;
    [intros Hr; inversion Hr; subst; discriminate Hs|].
  intros _.
  destruct (process_image_returns _ _ _ _ _ _ E1) as (img_s & Ds & Ss & Ns).
  destruct (process_image_returns _ _ _ _ _ _ E2) as (img_d & Dd & Sd & Nd).
  exists img_s, sp, img_d, dp.
  repeat split; auto;
    [exact (save_output_image_returns _ _ _ _ _ _ _ _ E3)
    |exact (save_output_image_returns _ _ _ _ _ _ _ _ E4)].
Qed.

(** X10. When a request that misses the cache is answered 200, the answer
    carries the two output locations, each upload decoded and encoded and
    its output path now holds exactly the encoded bytes, and the cache
    maps the key to the two locations until [ttl] after the put. *)
Theorem process_images_success env source_image dest_image w resp :
  let o := process_images Image open_convert save folder env
             source_image dest_image w in
  let k := cache_key (file_content source_image) (file_content dest_image) in
  let sp := path_join folder ("source_" +:+ uuid_src env +:+ ".png") in
  let dp := path_join folder ("dest_" +:+ uuid_dst env +:+ ".png") in
  TTLCache.contains (cache w) (now_in env) k = false ->
  run_result o = inr resp -> status_code resp = 200 ->
  resp = JSONResponse 200 [("source_result", "/" +:+ sp);
                           ("dest_result", "/" +:+ dp)]
  /\ (exists img_s png_s img_d png_d,
         open_convert (file_content source_image) = inr img_s
         /\ save img_s = inr png_s
         /\ open_convert (file_content dest_image) = inr img_d
         /\ save img_d = inr png_d
         /\ files (run_world o) !! sp = Some png_s
         /\ files (run_world o) !! dp = Some png_d)
  /\ TTLCache.lookup_link k (cache (run_world o))
     = Some (TTLCache.Link k ("/" +:+ sp, "/" +:+ dp)
               (now_set env + TTLCache.ttl))
  /\ forall t, t < now_set env + TTLCache.ttl ->
               TTLCache.contains (cache (run_world o)) t k = true.
Proof.
  intros o k sp dp Hmiss Hr Hs. subst o k sp dp.
  destruct (process_images_200_inversion _ _ _ _ _ Hmiss Hr Hs)
    as (Hv & img_s & png_s & img_d & png_d
        & Ds & Ss & Dd & Sd & Ns & Nd & Is & Id).
  revert Hr.
  rewrite (process_images_success_run env _ _ w _ _ _ _
             Hv Hmiss Ds Ss Dd Sd Ns Nd Is Id).
  unfold run_result, run_world. simpl. intros Hr.
  split; [inversion Hr; reflexivity|].
  split.
  { exists img_s, png_s, img_d, png_d. repeat split; auto.
    - rewrite lookup_insert_ne by (apply not_eq_sym, output_paths_ne).
      apply lookup_insert_eq.
    - apply lookup_insert_eq. }
  split; [apply lookup_setitem_same|].
  intros t Ht. unfold TTLCache.contains. rewrite lookup_setitem_same.
  unfold TTLCache.live. simpl. lia.
Qed.

Lemma no_name_invalid source_image dest_image :
  no_name (filename source_image) \/ no_name (filename dest_image) ->
  request_valid source_image dest_image = false.
Proof.
  intros H. apply not_true_iff_false. intros Hv.
  exact (request_valid_has_names _ _ Hv H).
Qed.

(** X15. The handler answers 400 exactly when the request fails
    validation (a name is missing or empty, or an extension is not
    allowed); a processing or storage failure is never reported as 400,
    and a 400 answer leaves the state untouched and makes no call. *)
Theorem process_images_400_iff_invalid env source_image dest_image w :
  let o := process_images Image open_convert save folder env
             source_image dest_image w in
  ((exists resp, run_result o = inr resp /\ status_code resp = 400)
   <-> request_valid source_image dest_image = false)
  /\ (request_valid source_image dest_image = false ->
      run_world o = w /\ run_events o = []).
Proof.
  intros o. split; [split|].
  - intros (resp & Hr & Hs). revert Hr Hs.
    follow_path; intros Hr Hs; inversion Hr; subst; simpl in Hs;
      try discriminate Hs.
    + apply no_name_invalid. assumption.
    + unfold request_valid.
      repeat match goal with H : filename _ = Some _ |- _ => rewrite H end.
      match goal with H : allowed_file _ && allowed_file _ = false |- _ =>
        rewrite <- andb_assoc, H end.
      apply andb_false_r.
  - intros Hv. follow_path; try congruence; eexists; split; reflexivity.
  - intros Hv. follow_path; try congruence; split; reflexivity.
Qed.

(** ** RequestHandler and the cache: expiry and size *)

(** X12. Once [ttl] has passed since a request cached its result, the
    same bytes miss the cache again: the membership test fails and the
    handler transforms the source upload anew. *)
Theorem process_images_after_ttl_reprocesses env1 env2 source_image dest_image
    source_image' dest_image' w resp :
  let o1 := process_images Image open_convert save folder env1
              source_image dest_image w in
  TTLCache.contains (cache w) (now_in env1)
    (cache_key (file_content source_image) (file_content dest_image)) = false ->
  run_result o1 = inr resp -> status_code resp = 200 ->
  request_valid source_image' dest_image' = true ->
  file_content source_image' = file_content source_image ->
  file_content dest_image' = file_content dest_image ->
  now_set env1 + TTLCache.ttl <= now_in env2 ->
  let o2 := process_images Image open_convert save folder env2
              source_image' dest_image' (run_world o1) in
  TTLCache.contains (cache (run_world o1)) (now_in env2)
    (cache_key (file_content source_image') (file_content dest_image')) = false
  /\ exists ok rest,
       run_events o2 = EvTransform (file_content source_image) ok :: rest.
Proof.
  intros o1 Hmiss Hr Hs Hv Es Ed Ht.
  assert (Hc : TTLCache.contains (cache (run_world o1)) (now_in env2)
                 (cache_key (file_content source_image')
                            (file_content dest_image')) = false).
  { rewrite Es, Ed. revert Hr.
    follow_path; intros Hr; inversion Hr; subst; simpl in Hs;
      try discriminate; try congruence.
    unfold TTLCache.contains. rewrite lookup_setitem_same.
    unfold TTLCache.live. simpl. lia. }
  intros o2. split; [exact Hc|]. subst o2.
  revert Hc. generalize (run_world o1). intros w1 Hc. clear o1 Hr.
  rewrite <- Es. clear Hmiss Es Ed.
  set (o2 := process_images Image open_convert save folder env2
               source_image' dest_image' w1).
  follow_path.
  - exfalso. eapply request_valid_has_names; eauto.
  - apply request_valid_names in Hv.
    destruct Hv as (a' & b' & Ea & Eb & _ & _ & Hal). congruence.
  - congruence.
  - congruence.
  - split_events; eexists _, _; reflexivity.
  - split_events; eexists _, _; reflexivity.
  - eexists _, _; reflexivity.
Qed.

Lemma filter_existsb_shrinks {A} (p : A -> bool) l :
  existsb p l = true ->
  (List.length (List.filter (fun y => negb (p y)) l) < List.length l)%nat.
Proof.
  induction l as [|y l IH]; simpl; [discriminate|].
  pose proof (filter_length_le (fun y => negb (p y)) l) as Hle.
  destruct (p y); simpl; intros H; [lia|].
  apply IH in H. lia.
Qed.

Lemma setitem_length c time k v :
  (List.length c <= TTLCache.maxsize)%nat ->
  (List.length (TTLCache.setitem c time k v) <= TTLCache.maxsize)%nat.
Proof.
  intros Hc. unfold TTLCache.setitem, TTLCache.expire.
  pose proof (filter_length_le (TTLCache.live time) c) as H1.
  set (c1 := List.filter (TTLCache.live time) c) in *.
  rewrite length_app. simpl.
  destruct (existsb (TTLCache.has_key k) c1) eqn:E.
  - apply (filter_existsb_shrinks (TTLCache.has_key k)) in E.
    unfold TTLCache.other_key. lia.
  - pose proof (filter_length_le (TTLCache.other_key k)
                  (skipn (List.length c1 + 1 - TTLCache.maxsize) c1)) as H2.
    rewrite length_skipn in H2. unfold TTLCache.maxsize in *. lia.
Qed.

Lemma move_to_end_length k c :
  (List.length (TTLCache.move_to_end k c) <= List.length c)%nat.
Proof.
  unfold TTLCache.move_to_end, TTLCache.lookup_link.
  destruct (List.find (TTLCache.has_key k) c) as [l|] eqn:E; [|lia].
  rewrite length_app. simpl.
  assert (Hex : existsb (TTLCache.has_key k) c = true).
  { apply existsb_exists. exists l. apply find_some in E. tauto. }
  apply (filter_existsb_shrinks (TTLCache.has_key k)) in Hex.
  unfold TTLCache.other_key. lia.
Qed.

(** X13. The handler keeps the cache within its capacity: if the cache
    holds at most [maxsize] (100) links before a request, it holds at
    most that many after it, whatever path the request takes. *)
Theorem process_images_cache_bounded env source_image dest_image w :
  (List.length (cache w) <= TTLCache.maxsize)%nat ->
  (List.length (cache (run_world
      (process_images Image open_convert save folder env
         source_image dest_image w))) <= TTLCache.maxsize)%nat.
Proof.
  intros Hc.
  set (o := process_images Image open_convert save folder env
              source_image dest_image w).
  follow_path; try exact Hc;
    try (pose proof (move_to_end_length
           (cache_key (file_content source_image) (file_content dest_image))
           (cache w)); lia).
  apply setitem_length. exact Hc.
Qed.

(** X14. Whatever path a request takes, the only files it can create,
    change or remove are the temporary files of its two transforms and
    its two output files; every other path of the file system is as it
    was. *)
Theorem process_images_frame env source_image dest_image w p :
  ~ In p (handler_paths folder env) ->
  files (run_world (process_images Image open_convert save folder env
                      source_image dest_image w)) !! p
  = files w !! p.
Proof.
  intros Hp. unfold handler_paths in Hp. simpl in Hp.
  assert (H1 : p <> tmp_in (tmp_src env)) by (intros ->; tauto).
  assert (H2 : p <> tmp_out (tmp_src env)) by (intros ->; tauto).
  assert (H3 : p <> tmp_in (tmp_dst env)) by (intros ->; tauto).
  assert (H4 : p <> tmp_out (tmp_dst env)) by (intros ->; tauto).
  assert (H5 : p <> path_join folder ("source_" +:+ uuid_src env +:+ ".png"))
    by (intros ->; tauto).
  assert (H6 : p <> path_join folder ("dest_" +:+ uuid_dst env +:+ ".png"))
    by (intros ->; tauto).
  clear Hp. unfold process_images.
  destruct (filename source_image) as [a|]; [|reflexivity].
  destruct (filename dest_image) as [b|]; [|reflexivity].
  destruct (String.eqb a ""); [reflexivity|].
  destruct (String.eqb b ""); [reflexivity|]. simpl.
  destruct (allowed_file a && allowed_file b); [|reflexivity]. simpl.
  unfold bind at 1. unfold cache_contains at 1.
  destruct (TTLCache.contains _ _ _).
  - unfold bind, cache_getitem, ret.
    destruct (TTLCache.getitem _ _ _) as [[v|] c]; reflexivity.
  - destruct (process_image_shape_frame (tmp_src env)
                (file_content source_image) w) as (r1 & fs1 & E1 & F1).
    unfold try_except at 1. unfold bind at 1. rewrite E1.
    destruct r1 as [e1|sp]; simpl; [apply F1; assumption|].
    destruct (process_image_shape_frame (tmp_dst env)
                (file_content dest_image) (MkWorld (cache w) fs1))
      as (r2 & fs2 & E2 & F2).
    unfold bind at 1. rewrite E2. simpl in *.
    destruct r2 as [e2|dp]; simpl.
    { unfold run_world. simpl. rewrite F2, F1 by assumption. reflexivity. }
    destruct (save_output_image_shape_frame (io_src env) sp folder
                ("source_" +:+ uuid_src env +:+ ".png")
                (MkWorld (cache w) fs2)) as (r3 & fs3 & E3 & F3).
    unfold try_except at 1. unfold bind at 1. rewrite E3. simpl in *.
    destruct r3 as [e3|p1]; simpl.
    { unfold run_world. simpl. rewrite F3, F2, F1 by assumption.
      reflexivity. }
    destruct (save_output_image_shape_frame (io_dst env) dp folder
                ("dest_" +:+ uuid_dst env +:+ ".png")
                (MkWorld (cache w) fs3)) as (r4 & fs4 & E4 & F4).
    unfold bind at 1. rewrite E4. simpl in *.
    destruct r4 as [e4|p2]; simpl;
      unfold run_world; simpl; rewrite F4, F3, F2, F1 by assumption;
      reflexivity.
Qed.

End PipelineFurther.

(** ** The further properties on concrete requests *)

Lemma output_paths_distinct_witness :
  "static/output" <> ""
  /\ (forall pre, "static/output" <> pre +:+ "/")
  /\ path_join "static/output" ("source_" +:+ "ab" +:+ ".png")
     = "static/output" +:+ "/" +:+ "source_" +:+ "ab" +:+ ".png"
  /\ path_join "static/output" ("dest_" +:+ "ab" +:+ ".png")
     = "static/output" +:+ "/" +:+ "dest_" +:+ "ab" +:+ ".png".
Proof.
  assert (H1 : "static/output" <> "") by discriminate.
  assert (H2 : forall pre, "static/output" <> pre +:+ "/").
  { intros pre H.
    assert (E : ends_with_sep "static/output" = true)
      by (apply ends_with_sep_spec; exists pre; exact H).
    discriminate E. }
  split; [exact H1|]. split; [exact H2|].
  exact (proj2 (proj2 (output_paths_distinct "static/output" "ab" "ab"))
           H1 H2).
Defined.

Lemma process_image_success_restores_state_witness :
  let o := sample_transform (MkTemp "/tmp/tmp1.png" "/tmp/tmp2.png")
             red_png empty_world in
  run_result o = inr red_png
  /\ (exists img,
         sample_open_convert_L red_png = inr img
         /\ sample_save_png img = inr red_png)
  /\ files (run_world o) !! "/tmp/tmp1.png" = None
  /\ files (run_world o) !! "/tmp/tmp2.png" = None
  /\ (files empty_world !! "/tmp/tmp1.png" = None ->
      files empty_world !! "/tmp/tmp2.png" = None ->
      o = (inr red_png, empty_world, [EvTransform red_png true])).
Proof.
  intros o.
  assert (H : run_result o = inr red_png) by (vm_compute; reflexivity).
  split; [exact H|].
  exact (process_image_success_restores_state sample_open_convert_L
           sample_save_png (MkTemp "/tmp/tmp1.png" "/tmp/tmp2.png")
           red_png empty_world red_png H).
Defined.


Lemma process_images_success_witness :
  let env := sample_env 10 IoOk IoOk in
  let o := sample_run env upload_red upload_blue empty_world in
  let k := cache_key red_png blue_png in
  let sp := path_join sample_folder ("source_" +:+ uuid_src env +:+ ".png") in
  let dp := path_join sample_folder ("dest_" +:+ uuid_dst env +:+ ".png") in
  JSONResponse 200 [("source_result", "/" +:+ source_out);
                    ("dest_result", "/" +:+ dest_out)]
  = JSONResponse 200 [("source_result", "/" +:+ sp);
                      ("dest_result", "/" +:+ dp)]
  /\ (exists img_s png_s img_d png_d,
         sample_open_convert_L red_png = inr img_s
         /\ sample_save_png img_s = inr png_s
         /\ sample_open_convert_L blue_png = inr img_d
         /\ sample_save_png img_d = inr png_d
         /\ files (run_world o) !! sp = Some png_s
         /\ files (run_world o) !! dp = Some png_d)
  /\ TTLCache.lookup_link k (cache (run_world o))
     = Some (TTLCache.Link k ("/" +:+ sp, "/" +:+ dp) (10 + TTLCache.ttl))
  /\ forall t, t < 10 + TTLCache.ttl ->
               TTLCache.contains (cache (run_world o)) t k = true.
Proof.
  apply (process_images_success sample_open_convert_L sample_save_png
           sample_folder (sample_env 10 IoOk IoOk) upload_red upload_blue
           empty_world
           (JSONResponse 200 [("source_result", "/" +:+ source_out);
                              ("dest_result", "/" +:+ dest_out)])).
  - reflexivity.
  - vm_compute. reflexivity.
  - reflexivity.
Defined.

Lemma process_images_after_ttl_reprocesses_witness :
  let o1 := sample_run (sample_env 10 IoOk IoOk) upload_a upload_b empty_world in
  let o2 := sample_run (sample_env 3610 IoOk IoOk) upload_a upload_b
              (run_world o1) in
  TTLCache.contains (cache (run_world o1)) 3610 (cache_key png_a png_b) = false
  /\ exists ok rest, run_events o2 = EvTransform png_a ok :: rest.
Proof.
  apply (process_images_after_ttl_reprocesses sample_open_convert_L
           sample_save_png sample_folder
           (sample_env 10 IoOk IoOk) (sample_env 3610 IoOk IoOk)
           upload_a upload_b upload_a upload_b empty_world
           (JSONResponse 200 [("source_result", "/" +:+ source_out);
                              ("dest_result", "/" +:+ dest_out)])).
  - reflexivity.
  - vm_compute. reflexivity.
  - reflexivity.
  - vm_compute. reflexivity.
  - reflexivity.
  - reflexivity.
  - vm_compute. discriminate.
Defined.

Lemma process_images_cache_bounded_witness :
  (List.length (cache (run_world
      (sample_run (sample_env 10 IoOk IoOk) upload_a upload_b empty_world)))
   <= TTLCache.maxsize)%nat.
Proof.
  apply (process_images_cache_bounded sample_open_convert_L sample_save_png
           sample_folder (sample_env 10 IoOk IoOk) upload_a upload_b
           empty_world).
  vm_compute. lia.
Defined.

Lemma process_images_frame_witness :
  files (run_world
           (sample_run (sample_env 10 IoOk IoOk) upload_a upload_b
              (MkWorld [] {[ "static/output/keep.png" := png_b ]})))
    !! "static/output/keep.png"
  = files (MkWorld [] {[ "static/output/keep.png" := png_b ]})
      !! "static/output/keep.png".
Proof.
  apply (process_images_frame sample_open_convert_L sample_save_png
           sample_folder (sample_env 10 IoOk IoOk) upload_a upload_b
           (MkWorld [] {[ "static/output/keep.png" := png_b ]})
           "static/output/keep.png").
  vm_compute. intros H.
  repeat (destruct H as [H|H]; [discriminate H|]). exact H.
Defined.

Lemma process_images_400_iff_invalid_witness :
  let o := sample_run (sample_env 10 IoOk IoOk) (MkUpload None png_a) upload_b
             empty_world in
  request_valid (MkUpload None png_a) upload_b = false
  /\ run_world o = empty_world /\ run_events o = [].
Proof.
  intros o.
  assert (H : request_valid (MkUpload None png_a) upload_b = false)
    by reflexivity.
  split; [exact H|].
  exact (proj2 (process_images_400_iff_invalid sample_open_convert_L
                  sample_save_png sample_folder (sample_env 10 IoOk IoOk)
                  (MkUpload None png_a) upload_b empty_world) H).
Defined.
